(** * A model of [String<T>] from [lb4.cpp]

    The class [String<T>] owns a heap array of [T] through a raw pointer
    [data] and a [size_t] field [length].  The development below embeds the
    class the way it is written:

    - the free store is a finite map from blocks to arrays, a pointer is
      either null or a block with an element offset, and [new T[n]] returns
      a pointer to a fresh block, also for [n = 0]; allocation always
      succeeds ([std::bad_alloc] is outside the model);
    - [String] objects live in an object store indexed by their address, so
      that [this != &other] is a comparison of addresses;
    - member functions are computations in a state monad whose outcome is a
      value, a thrown [StringException], or [Undef] for behaviour the
      language leaves undefined (reading or writing outside an array,
      freeing a pointer twice, comparing pointers into different arrays);
    - [size_t] values are numbers in [N]; sums and products computed by the
      source are reduced modulo [2^64].

    Of [main] the statements that update the string are modelled, not its
    menu and its input and output.  The converting constructor, [c_str] and
    the extraction [is >> temp] inside [operator>>] are not part of the
    model; an output stream is the list of the characters written to it.

    The overload [String transformed(const Transformer<T>&) const] is not
    part of the model either: its body calls [transformed<T>] with a closure
    as the argument, and the explicit [<T>] makes the parameter a
    [const T&], to which a closure does not convert.  The body is rejected
    when the overload is instantiated, so no program calls it; [main] does
    not. *)

From stdpp Require Import gmap list numbers.

Local Open Scope N_scope.

(** ** Machine integers *)

Definition size_t_modulus : N := 2 ^ 64.
Definition SIZE_MAX : N := size_t_modulus - 1.

(** Unsigned arithmetic on [size_t] wraps around. *)
Definition wrap (n : N) : N := n mod size_t_modulus.

(** Conversion of a signed value to [size_t]. *)
Definition to_size_t (z : Z) : N := Z.to_N (z mod Z.of_N size_t_modulus).

Definition size_add (a b : N) : N := wrap (a + b).
Definition size_mul (a b : N) : N := wrap (a * b).
Definition size_sub (a b : N) : N := to_size_t (Z.of_N a - Z.of_N b).

Definition INT_MIN : Z := (- 2 ^ 31)%Z.
Definition INT_MAX : Z := (2 ^ 31 - 1)%Z.

(** ** Pointers, exceptions, objects *)

Definition block := positive.
Definition addr := positive.

Inductive ptr : Set :=
| Null
| Ptr (b : block) (off : N).

#[global] Instance ptr_eq_dec : EqDecision ptr.
Proof. solve_decision. Defined.

(** [OutOfRangeException(index)] and [InvalidRangeException()], both derived
    from [StringException]. *)
Inductive StringException : Set :=
| OutOfRangeException (index : N)
| InvalidRangeException.

(** The two data members of [String<T>]. *)
Record String : Set := mkString { data : ptr; length : N }.

(** Default member initialisers: [data = nullptr], [length = 0]. *)
Definition String_init : String := mkString Null 0.

Section Model.

(** The element type; [new T[n]] needs a default-initialised [T], the
    value an array element has before it is first written. *)
Context {T : Type} `{!Inhabited T}.

Record state : Type := State {
  heap : gmap block (list T);
  objs : gmap addr String
}.

Inductive outcome (A : Type) : Type :=
| Val (a : A) (s : state)
| Exc (e : StringException) (s : state)
| Undef.

Arguments Val {A} a s.
Arguments Exc {A} e s.
Arguments Undef {A}.

Definition M (A : Type) : Type := state -> outcome A.

Definition ret {A} (a : A) : M A := fun s => Val a s.

Definition bind {A B} (m : M A) (k : A -> M B) : M B :=
  fun s =>
    match m s with
    | Val a s' => k a s'
    | Exc e s' => Exc e s'
    | Undef => Undef
    end.

Definition throw {A} (e : StringException) : M A := fun s => Exc e s.

Notation "x <- m ;; k" := (bind m (fun x => k))
  (at level 100, m at next level, right associativity).
Notation "m ;;; k" := (bind m (fun _ => k))
  (at level 100, right associativity).

(** [for (size_t i = i0; i < i0 + fuel; ++i) body(i)]: the bound of every
    such loop in the source is fixed before the loop starts. *)
Fixpoint for_from (fuel : nat) (i : N) (body : N -> M unit) : M unit :=
  match fuel with
  | O => ret tt
  | S k => body i ;;; for_from k (N.succ i) body
  end.

Definition for_upto (n : N) (body : N -> M unit) : M unit :=
  for_from (N.to_nat n) 0 body.

(** ** The free store *)

(** [new T[n]]: a fresh block of [n] elements; never null. *)
Definition new_array (n : N) : M ptr :=
  fun s =>
    let b := fresh (dom (heap s)) in
    Val (Ptr b 0)
        (State (<[b := replicate (N.to_nat n) inhabitant]> (heap s)) (objs s)).

(** [delete[] p]: nothing for a null pointer; otherwise [p] must be what
    [new T[n]] returned and must not have been freed. *)
Definition delete_array (p : ptr) : M unit :=
  fun s =>
    match p with
    | Null => Val tt s
    | Ptr b off =>
        match heap s !! b with
        | Some _ =>
            if decide (off = 0) then Val tt (State (delete b (heap s)) (objs s))
            else Undef
        | None => Undef
        end
    end.

(** Evaluations that only inspect the free store; [None] is undefined
    behaviour. *)
Definition ask {A} (f : gmap block (list T) -> option A) : M A :=
  fun s => match f (heap s) with Some a => Val a s | None => Undef end.

(** [p + n]: defined inside an array and one past its end; [nullptr + 0] is
    [nullptr]. *)
Definition ptr_add_in (h : gmap block (list T)) (p : ptr) (n : N) : option ptr :=
  match p with
  | Null => if decide (n = 0) then Some Null else None
  | Ptr b off =>
      match h !! b with
      | Some arr =>
          if decide (off + n <= N.of_nat (List.length arr))
          then Some (Ptr b (off + n)) else None
      | None => None
      end
  end.

Definition ptr_add (p : ptr) (n : N) : M ptr := ask (fun h => ptr_add_in h p n).

(** [*p] as an rvalue. *)
Definition load_in (h : gmap block (list T)) (p : ptr) : option T :=
  match p with
  | Null => None
  | Ptr b off =>
      match h !! b with
      | Some arr => arr !! N.to_nat off
      | None => None
      end
  end.

Definition load (p : ptr) : M T := ask (fun h => load_in h p).

(** [*p = v]. *)
Definition store (p : ptr) (v : T) : M unit :=
  fun s =>
    match p with
    | Null => Undef
    | Ptr b off =>
        match heap s !! b with
        | Some arr =>
            if decide (off < N.of_nat (List.length arr))
            then Val tt (State (<[b := <[N.to_nat off := v]> arr]> (heap s)) (objs s))
            else Undef
        | None => Undef
        end
    end.

(** [p[i]] read and written. *)
Definition load_at (p : ptr) (i : N) : M T := q <- ptr_add p i ;; load q.
Definition store_at (p : ptr) (i : N) (v : T) : M unit :=
  q <- ptr_add p i ;; store q v.

(** Two pointers into one array (or one past its end), or two null
    pointers: the operands for which [>] and [-] on pointers are defined. *)
Definition same_array (h : gmap block (list T)) (p q : ptr) : bool :=
  match p, q with
  | Null, Null => true
  | Ptr b1 o1, Ptr b2 o2 =>
      match h !! b1 with
      | Some arr =>
          bool_decide (b1 = b2 /\ o1 <= N.of_nat (List.length arr)
                       /\ o2 <= N.of_nat (List.length arr))
      | None => false
      end
  | _, _ => false
  end.

Definition offset (p : ptr) : N :=
  match p with Null => 0 | Ptr _ off => off end.

(** [p > q] on pointers. *)
Definition ptr_gt (p q : ptr) : M bool :=
  ask (fun h => if same_array h p q then Some (offset q <? offset p) else None).

(** [size_t len = e - b]: the signed difference of the offsets, converted to
    [size_t]. *)
Definition ptr_diff (e b : ptr) : M N :=
  ask (fun h => if same_array h e b then Some (size_sub (offset e) (offset b))
                else None).

(** ** The object store *)

(** Storage for a new [String] object, its members set by their default
    member initialisers. *)
Definition alloc_obj : M addr :=
  fun s =>
    let a := fresh (dom (objs s)) in
    Val a (State (heap s) (<[a := String_init]> (objs s))).

Definition get_obj (a : addr) : M String :=
  fun s => match objs s !! a with Some r => Val r s | None => Undef end.

Definition get_data (a : addr) : M ptr := r <- get_obj a ;; ret (data r).
Definition get_length (a : addr) : M N := r <- get_obj a ;; ret (length r).

Definition set_data (a : addr) (p : ptr) : M unit :=
  fun s =>
    match objs s !! a with
    | Some r => Val tt (State (heap s) (<[a := mkString p (length r)]> (objs s)))
    | None => Undef
    end.

Definition set_length (a : addr) (n : N) : M unit :=
  fun s =>
    match objs s !! a with
    | Some r => Val tt (State (heap s) (<[a := mkString (data r) n]> (objs s)))
    | None => Undef
    end.

(** The end of an object's lifetime: its storage is given back. *)
Definition free_obj (a : addr) : M unit :=
  fun s =>
    match objs s !! a with
    | Some _ => Val tt (State (heap s) (delete a (objs s)))
    | None => Undef
    end.

(** ** Member functions of [String<T>] *)

(** [void copy_from(const T* source, size_t len)] *)
Definition copy_from (this : addr) (source : ptr) (len : N) : M unit :=
  p <- new_array len ;;
  set_data this p ;;;
  for_upto len (fun i =>
    v <- load_at source i ;;
    d <- get_data this ;;
    store_at d i v) ;;;
  set_length this len.

(** [String() = default] *)
Definition String_default : M addr := alloc_obj.

(** [String(const String& other)] *)
Definition String_copy (other : addr) : M addr :=
  this <- alloc_obj ;;
  od <- get_data other ;;
  ol <- get_length other ;;
  copy_from this od ol ;;;
  ret this.

(** [String(String&& other) noexcept] *)
Definition String_move (other : addr) : M addr :=
  this <- alloc_obj ;;
  od <- get_data other ;;
  ol <- get_length other ;;
  set_data this od ;;;
  set_length this ol ;;;
  set_data other Null ;;;
  set_length other 0 ;;;
  ret this.

(** [String(size_t count, const T& ch)] *)
Definition String_fill (count : N) (ch : T) : M addr :=
  this <- alloc_obj ;;
  p <- new_array count ;;
  set_data this p ;;;
  for_upto count (fun i => d <- get_data this ;; store_at d i ch) ;;;
  set_length this count ;;;
  ret this.

(** [String(const T* begin, const T* end)] *)
Definition String_range (begin_ end_ : ptr) : M addr :=
  this <- alloc_obj ;;
  gt <- ptr_gt begin_ end_ ;;
  if (gt : bool) then throw InvalidRangeException
  else
    len <- ptr_diff end_ begin_ ;;
    copy_from this begin_ len ;;;
    ret this.

(** [String& operator=(const String& other)] *)
Definition assign_copy (this other : addr) : M addr :=
  (if decide (this <> other) then
     d <- get_data this ;;
     delete_array d ;;;
     od <- get_data other ;;
     ol <- get_length other ;;
     copy_from this od ol
   else ret tt) ;;;
  ret this.

(** [String& operator=(String&& other) noexcept] *)
Definition assign_move (this other : addr) : M addr :=
  (if decide (this <> other) then
     d <- get_data this ;;
     delete_array d ;;;
     od <- get_data other ;;
     set_data this od ;;;
     ol <- get_length other ;;
     set_length this ol ;;;
     set_data other Null ;;;
     set_length other 0
   else ret tt) ;;;
  ret this.

(** [size_t size() const] *)
Definition size (this : addr) : M N := get_length this.

(** [bool empty() const] *)
Definition empty (this : addr) : M bool :=
  l <- get_length this ;; ret (l =? 0).

(** [void clear()] *)
Definition clear (this : addr) : M unit :=
  d <- get_data this ;;
  delete_array d ;;;
  set_data this Null ;;;
  set_length this 0.

(** [T& operator[](size_t index)] and its [const] twin: the result is the
    lvalue [data[index]]. *)
Definition subscript (this : addr) (index : N) : M ptr :=
  l <- get_length this ;;
  if decide (l <= index) then throw (OutOfRangeException index)
  else d <- get_data this ;; ptr_add d index.

(** The element read through [operator[]], as in [os << str[i]]. *)
Definition at_ (this : addr) (index : N) : M T :=
  p <- subscript this index ;; load p.

(** [String substr(size_t start, size_t len) const] *)
Definition substr (this : addr) (start len : N) : M addr :=
  l <- get_length this ;;
  if decide (l < start) then throw (OutOfRangeException start)
  else
    let actualLen := N.min len (size_sub l start) in
    d <- get_data this ;;
    b <- ptr_add d start ;;
    e <- ptr_add b actualLen ;;
    String_range b e.

(** [String operator+(const String& other) const] *)
Definition concat (this other : addr) : M addr :=
  result <- String_default ;;
  l <- get_length this ;;
  ol <- get_length other ;;
  p <- new_array (size_add l ol) ;;
  set_data result p ;;;
  for_upto l (fun i =>
    d <- get_data this ;;
    v <- load_at d i ;;
    rd <- get_data result ;;
    store_at rd i v) ;;;
  for_upto ol (fun i =>
    od <- get_data other ;;
    v <- load_at od i ;;
    rd <- get_data result ;;
    store_at rd (size_add l i) v) ;;;
  set_length result (size_add l ol) ;;;
  ret result.

(** [String& operator+=(const T& ch)] *)
Definition append (this : addr) (ch : T) : M addr :=
  l <- get_length this ;;
  newData <- new_array (size_add l 1) ;;
  for_upto l (fun i =>
    d <- get_data this ;;
    v <- load_at d i ;;
    store_at newData i v) ;;;
  store_at newData l ch ;;;
  d <- get_data this ;;
  delete_array d ;;;
  set_data this newData ;;;
  set_length this (size_add l 1) ;;;
  ret this.

(** [struct Transformer]: one virtual call operator [T operator()(const T&)]. *)
Record Transformer : Type := { call : T -> T }.

(** [void apply(const Transformer<T>&)] and [template void modify(const Trans&)]
    have the same body. *)
Definition modify (this : addr) (transformer : T -> T) : M unit :=
  l <- get_length this ;;
  for_upto l (fun i =>
    d <- get_data this ;;
    v <- load_at d i ;;
    store_at d i (transformer v)).

Definition apply (this : addr) (transformer : Transformer) : M unit :=
  modify this (call transformer).

(** [template <typename Trans> String transformed(const Trans&) const] *)
Definition transformed (this : addr) (transformer : T -> T) : M addr :=
  result <- String_default ;;
  l <- get_length this ;;
  p <- new_array l ;;
  set_data result p ;;;
  for_upto l (fun i =>
    d <- get_data this ;;
    v <- load_at d i ;;
    rd <- get_data result ;;
    store_at rd i (transformer v)) ;;;
  set_length result l ;;;
  ret result.

(** [~String()] *)
Definition destroy (this : addr) : M unit :=
  d <- get_data this ;;
  delete_array d ;;;
  free_obj this.

(** ** Free operators *)

(** [String<T> operator*(const String<T>& s, int times)]; the counter [t]
    runs over [0 .. times - 1] and is converted to [size_t] in the index. *)
Definition repeat_ (s : addr) (times : Z) : M addr :=
  if decide (times <= 0)%Z then String_default
  else
    result <- String_default ;;
    l <- get_length s ;;
    p <- new_array (size_mul l (to_size_t times)) ;;
    set_data result p ;;;
    for_upto (Z.to_N times) (fun t =>
      for_upto l (fun i =>
        sd <- get_data s ;;
        v <- load_at sd i ;;
        rd <- get_data result ;;
        store_at rd (size_add (size_mul t l) i) v)) ;;;
    set_length result (size_mul l (to_size_t times)) ;;;
    ret result.

(** [String<T> operator*(int times, const String<T>& s)] *)
Definition repeat_left (times : Z) (s : addr) : M addr := repeat_ s times.

(** [String<T> operator+(const String<T>& s, const T& ch)]; the named local
    [result] is the object the caller receives. *)
Definition append_element (s : addr) (ch : T) : M addr :=
  result <- String_copy s ;;
  append result ch ;;;
  ret result.

(** [String<T> operator+(const T& ch, const String<T>& s)]; the local
    [result] is destroyed when the function returns. *)
Definition prepend_element (ch : T) (s : addr) : M addr :=
  result <- String_fill 1 ch ;;
  r <- concat result s ;;
  destroy result ;;;
  ret r.

(** [std::ostream& operator<<(std::ostream& os, const String<char>& str)]:
    the stream is the list of the characters written to it so far.  The
    loop tests [i < str.size()] before every round; writing a character
    does not touch [str], so the bound is the size read at the start. *)
Fixpoint write_loop (fuel : nat) (i : N) (str : addr) (os : list T)
  : M (list T) :=
  match fuel with
  | O => ret os
  | S k => c <- at_ str i ;; write_loop k (N.succ i) str (os ++ [c])
  end.

Definition op_write (os : list T) (str : addr) : M (list T) :=
  n <- size str ;;
  write_loop (N.to_nat n) 0 str os.

(** [s = s + other;] and [s = s * times;] in [main]: the right-hand side
    is a temporary, move-assigned to [s] and destroyed at the end of the
    statement. *)
Definition assign_concat (s other : addr) : M unit :=
  tmp <- concat s other ;;
  assign_move s tmp ;;;
  destroy tmp.

Definition assign_repeat (s : addr) (times : Z) : M unit :=
  tmp <- repeat_ s times ;;
  assign_move s tmp ;;;
  destroy tmp.

Section Sentinel.

(** The element type's [T()] and [operator==]. *)
Variable T_zero : T.
Variable T_eq : T -> T -> bool.

(** [length = 0; while (!(cstr[length] == T())) ++length;] over the
    elements that follow [cstr] in its array: the count of elements before
    the first one equal to [T()], and [None] when the array ends first (the
    loop then reads past its end).  For [char] the source calls
    [std::strlen], which is the same scan. *)
Fixpoint scan_zero (buf : list T) (n : N) : option N :=
  match buf with
  | [] => None
  | c :: buf' => if T_eq c T_zero then Some n else scan_zero buf' (size_add n 1)
  end.

Definition measure (cstr : ptr) : M N :=
  ask (fun h =>
    match cstr with
    | Null => None
    | Ptr b off =>
        match h !! b with
        | Some arr =>
            if decide (off <= N.of_nat (List.length arr))
            then scan_zero (drop (N.to_nat off) arr) 0 else None
        | None => None
        end
    end).

(** [String(const T* cstr)] *)
Definition String_cstr (cstr : ptr) : M addr :=
  this <- alloc_obj ;;
  n <- measure cstr ;;
  set_length this n ;;;
  copy_from this cstr n ;;;
  ret this.


End Sentinel.

Section Compare.

(** The element type's [operator<], [operator>] and [operator!=]. *)
Variables T_lt T_gt T_ne : T -> T -> bool.

(** The loop of [operator==], from index [i] for [fuel] more rounds. *)
Fixpoint eq_loop (fuel : nat) (i : N) (a b : addr) : M bool :=
  match fuel with
  | O => ret true
  | S k =>
      ad <- get_data a ;;
      x <- load_at ad i ;;
      bd <- get_data b ;;
      y <- load_at bd i ;;
      if T_ne x y then ret false else eq_loop k (N.succ i) a b
  end.

(** [bool operator==(const String<T>& a, const String<T>& b)] *)
Definition op_eq (a b : addr) : M bool :=
  al <- get_length a ;;
  bl <- get_length b ;;
  if decide (al <> bl) then ret false
  else eq_loop (N.to_nat al) 0 a b.

(** [bool operator!=(const String<T>& a, const String<T>& b)] *)
Definition op_ne (a b : addr) : M bool :=
  e <- op_eq a b ;; ret (negb e).

(** The loop of [operator<]; [None] when it runs to its end. *)
Fixpoint lt_loop (fuel : nat) (i : N) (a b : addr) : M (option bool) :=
  match fuel with
  | O => ret None
  | S k =>
      ad <- get_data a ;;
      x <- load_at ad i ;;
      bd <- get_data b ;;
      y <- load_at bd i ;;
      if T_lt x y then ret (Some true)
      else if T_gt x y then ret (Some false)
      else lt_loop k (N.succ i) a b
  end.

(** [bool operator<(const String<T>& a, const String<T>& b)] *)
Definition op_lt (a b : addr) : M bool :=
  al <- get_length a ;;
  bl <- get_length b ;;
  let min_len := N.min al bl in
  r <- lt_loop (N.to_nat min_len) 0 a b ;;
  match r with
  | Some v => ret v
  | None => ret (al <? bl)
  end.

(** [operator>], [operator<=], [operator>=] *)
Definition op_gt (a b : addr) : M bool := op_lt b a.
Definition op_le (a b : addr) : M bool := g <- op_gt a b ;; ret (negb g).
Definition op_ge (a b : addr) : M bool := l <- op_lt a b ;; ret (negb l).

(** What the two loops compute, read off the element lists: [seq_eq] is the
    answer of [operator==], [seq_lt] the answer of [operator<]. *)
Fixpoint eq_elems (xs ys : list T) : bool :=
  match xs, ys with
  | x :: xs', y :: ys' => if T_ne x y then false else eq_elems xs' ys'
  | _, _ => true
  end.

Definition seq_eq (xs ys : list T) : bool :=
  if decide (List.length xs <> List.length ys) then false
  else eq_elems xs ys.

Fixpoint seq_lt (xs ys : list T) : bool :=
  match xs, ys with
  | x :: xs', y :: ys' =>
      if T_lt x y then true
      else if T_gt x y then false
      else seq_lt xs' ys'
  | [], _ :: _ => true
  | _, [] => false
  end.

End Compare.

(** ** Abstraction: the sequence an object holds *)

(** [owns h r xs]: the members [r] describe the sequence [xs] in the free
    store [h]: [length] counts the elements and is a [size_t] value, and
    [data] is null (only for the empty sequence) or points to the start of a
    block that holds exactly [xs]. *)
Definition owns (h : gmap block (list T)) (r : String) (xs : list T) : Prop :=
  length r = N.of_nat (List.length xs) /\
  length r <= SIZE_MAX /\
  match data r with
  | Null => xs = []
  | Ptr b off => off = 0 /\ h !! b = Some xs
  end.

(** [holds st a xs]: the object at address [a] is a [String] whose elements
    are [xs]. *)
Definition holds (st : state) (a : addr) (xs : list T) : Prop :=
  exists r, objs st !! a = Some r /\ owns (heap st) r xs.

(** [reads h p n ys]: the [n] elements [p[0] .. p[n-1]] exist in [h] and are
    [ys]. *)
Definition reads (h : gmap block (list T)) (p : ptr) (n : N) (ys : list T)
  : Prop :=
  N.of_nat (List.length ys) = n /\
  match p with
  | Null => n = 0
  | Ptr b off =>
      exists arr, h !! b = Some arr /\
        off + n <= N.of_nat (List.length arr) /\
        ys = take (N.to_nat n) (drop (N.to_nat off) arr)
  end.

(** Two objects that do not share a backing array. *)
Definition separate (st : state) (a b : addr) : Prop :=
  forall ra rb, objs st !! a = Some ra -> objs st !! b = Some rb ->
    match data ra, data rb with
    | Ptr b1 _, Ptr b2 _ => b1 <> b2
    | _, _ => True
    end.

(** Exclusive ownership: every object describes a sequence in the free
    store, and no two objects share a backing array. *)
Definition well_formed (st : state) : Prop :=
  (forall a r, objs st !! a = Some r -> exists xs, owns (heap st) r xs) /\
  (forall a b, a <> b -> separate st a b).


(** The free store after [delete[]] on what the members [r] own. *)
Definition released (h : gmap block (list T)) (r : String)
  : gmap block (list T) :=
  match data r with Null => h | Ptr b _ => delete b h end.

End Model.

Arguments Val {T A} a s.
Arguments Exc {T A} e s.
Arguments Undef {T A}.

Arguments bind : simpl never.
Arguments copy_from : simpl never.
Arguments String_range : simpl never.
Arguments for_upto : simpl never.

Notation "x <- m ;; k" := (bind m (fun x => k))
  (at level 100, m at next level, right associativity).
Notation "m ;;; k" := (bind m (fun _ => k))
  (at level 100, right associativity).

(** ** Sample states over character codes *)

(** No objects, nothing allocated. *)
Definition st_empty : @state N := State ∅ ∅.

(** One object at address 1 that holds "abc". *)
Definition st_abc : @state N :=
  State {[ 1%positive := [97; 98; 99] ]}
        {[ 1%positive := mkString (Ptr 1%positive 0) 3 ]}.

(** "ab" at address 1, "cd" at address 2, a default-constructed object at
    address 3. *)
Definition st_two : @state N :=
  State (<[ 1%positive := [97; 98] ]> {[ 2%positive := [99; 100] ]})
        (<[ 1%positive := mkString (Ptr 1%positive 0) 2 ]>
           (<[ 2%positive := mkString (Ptr 2%positive 0) 2 ]>
              {[ 3%positive := String_init ]})).

(** A text of [2^33 + 5] characters at address 1. *)
Definition big_length : N := 8589934597.

Definition big_text : list N := replicate (N.to_nat big_length) 120.

Definition st_big : @state N :=
  State {[ 1%positive := big_text ]}
        {[ 1%positive := mkString (Ptr 1%positive 0) big_length ]}.

(** "abc" at address 1 and, in block 2, a buffer that holds the token "hi":
    its two characters, the terminating zero and a character left behind by
    a longer token. *)
Definition st_token : @state N :=
  State (<[ 1%positive := [97; 98; 99] ]> {[ 2%positive := [104; 105; 0; 33] ]})
        {[ 1%positive := mkString (Ptr 1%positive 0) 3 ]}.

(** The operator [!=] of an element type with a value that differs from
    itself, as [double] has with its NaN: [None] stands for that value,
    [Some n] for an ordinary one. *)
Definition nan_ne (x y : option N) : bool :=
  match x, y with
  | Some u, Some v => negb (u =? v)
  | _, _ => true
  end.

(** One object at address 1 that holds the single element NaN. *)
Definition st_nan : @state (option N) :=
  State {[ 1%positive := [None] ]}
        {[ 1%positive := mkString (Ptr 1%positive 0) 1 ]}.

(** The operator [==] of [char], on character codes. *)
Definition code_eq (x y : N) : bool := x =? y.

(** The operators [<], [>] and [!=] of [char], on character codes. *)
Definition code_lt (x y : N) : bool := x <? y.
Definition code_gt (x y : N) : bool := y <? x.
Definition code_ne (x y : N) : bool := negb (x =? y).

(** [struct ToUpperChar : Transformer<char>]: [std::toupper] in the "C"
    locale, on the code of the character taken as [unsigned char]. *)
Definition ToUpperChar : @Transformer N :=
  {| call := fun c => if (97 <=? c) && (c <=? 122) then c - 32 else c |}.

(** Discharges [holds st a xs] at a sample state by evaluation. *)
Ltac holds_tac :=
  eexists; split; [reflexivity|];
  repeat split; try reflexivity; by vm_compute.

(** ** Reasoning about the primitives *)

Section Proofs.

Context {T : Type} `{!Inhabited T}.

Lemma wrap_small n : n <= SIZE_MAX -> wrap n = n.
Proof.
  unfold wrap, SIZE_MAX, size_t_modulus. intros H.
  apply N.mod_small. lia.
Qed.

Lemma size_add_small a b : a + b <= SIZE_MAX -> size_add a b = a + b.
Proof. apply wrap_small. Qed.

Lemma size_mul_small a b : a * b <= SIZE_MAX -> size_mul a b = a * b.
Proof. apply wrap_small. Qed.

Lemma size_mul_0_l n : size_mul 0 n = 0.
Proof. unfold size_mul, wrap. by rewrite N.mul_0_l, N.Div0.mod_0_l. Qed.

Lemma to_size_t_small z :
  (0 <= z <= Z.of_N SIZE_MAX)%Z -> to_size_t z = Z.to_N z.
Proof.
  unfold to_size_t, SIZE_MAX, size_t_modulus. intros H.
  rewrite Z.mod_small; [done | lia].
Qed.

Lemma size_sub_small a b : b <= a -> a <= SIZE_MAX -> size_sub a b = a - b.
Proof.
  intros Hab Ha. unfold size_sub.
  rewrite to_size_t_small; unfold SIZE_MAX, size_t_modulus in *; lia.
Qed.

Lemma fresh_block_None (h : gmap block (list T)) : h !! fresh (dom h) = None.
Proof. apply not_elem_of_dom, is_fresh. Qed.

Lemma fresh_block_ne (h : gmap block (list T)) b arr :
  h !! b = Some arr -> b <> fresh (dom h).
Proof. intros H ->. rewrite fresh_block_None in H. done. Qed.

Lemma fresh_addr_None (o : gmap addr String) : o !! fresh (dom o) = None.
Proof. apply not_elem_of_dom, is_fresh. Qed.

Lemma fresh_addr_ne (o : gmap addr String) a r :
  o !! a = Some r -> a <> fresh (dom o).
Proof. intros H ->. rewrite fresh_addr_None in H. done. Qed.

Lemma ask_Some {A} (f : gmap block (list T) -> option A) a s :
  f (heap s) = Some a -> ask f s = Val a s.
Proof. unfold ask. by intros ->. Qed.

Lemma bind_Val {A B} (m : M A) (k : A -> M B) a (s s' : @state T) :
  m s = Val a s' -> bind m k s = k a s'.
Proof. unfold bind. by intros ->. Qed.

Lemma store_at_base b i (v : T) s : store_at (Ptr b 0) i v s = store (Ptr b i) v s.
Proof.
  unfold store_at, bind, ptr_add, ask, ptr_add_in, store.
  destruct (heap s !! b) as [arr|] eqn:E; [|done].
  rewrite N.add_0_l.
  destruct (decide (i <= N.of_nat (List.length arr))) as [Hle|Hle].
  - rewrite E. done.
  - destruct (decide (i < N.of_nat (List.length arr))); [lia|done].
Qed.

Lemma load_at_Some h o b off i arr (v : T) :
  h !! b = Some arr -> arr !! N.to_nat (off + i) = Some v ->
  load_at (Ptr b off) i (State h o) = Val v (State h o).
Proof.
  intros Hb Hv. unfold load_at, bind, ptr_add, load, ask. cbn. rewrite Hb.
  apply lookup_lt_Some in Hv as Hlt.
  destruct (decide _) as [_|Hn]; [|lia].
  cbn. by rewrite Hb, Hv.
Qed.

Lemma ptr_add_Null (s : @state T) : ptr_add Null 0 s = Val Null s.
Proof. unfold ptr_add, ask. cbn. by rewrite decide_True. Qed.

Lemma ptr_add_Ptr (h : gmap block (list T)) o b off n arr :
  h !! b = Some arr -> off + n <= N.of_nat (List.length arr) ->
  ptr_add (Ptr b off) n (State h o) = Val (Ptr b (off + n)) (State h o).
Proof.
  intros Hb Hle. unfold ptr_add, ask. cbn. rewrite Hb.
  by rewrite decide_True.
Qed.

Lemma store_Some h o b i arr (v : T) :
  h !! b = Some arr -> i < N.of_nat (List.length arr) ->
  store (Ptr b i) v (State h o)
  = Val tt (State (<[b := <[N.to_nat i := v]> arr]> h) o).
Proof.
  intros Hb Hi. unfold store. cbn. rewrite Hb.
  destruct (decide _); [done|lia].
Qed.

Lemma get_data_Some (h : gmap block (list T)) o a r :
  o !! a = Some r -> get_data a (State h o) = Val (data r) (State h o).
Proof. intros H. unfold get_data, get_obj, bind, ret. cbn. by rewrite H. Qed.

Lemma get_length_Some (h : gmap block (list T)) o a r :
  o !! a = Some r -> get_length a (State h o) = Val (length r) (State h o).
Proof. intros H. unfold get_length, get_obj, bind, ret. cbn. by rewrite H. Qed.

Lemma set_data_Some (h : gmap block (list T)) o a r p :
  o !! a = Some r ->
  set_data a p (State h o) = Val tt (State h (<[a := mkString p (length r)]> o)).
Proof. intros H. unfold set_data. cbn. by rewrite H. Qed.

Lemma set_length_Some (h : gmap block (list T)) o a r n :
  o !! a = Some r ->
  set_length a n (State h o) = Val tt (State h (<[a := mkString (data r) n]> o)).
Proof. intros H. unfold set_length. cbn. by rewrite H. Qed.

(** A freshly built object holds what its new block holds. *)
Lemma holds_new h o a fb (ys : list T) :
  N.of_nat (List.length ys) <= SIZE_MAX ->
  holds (State (<[fb := ys]> h)
               (<[a := mkString (Ptr fb 0) (N.of_nat (List.length ys))]> o))
        a ys.
Proof.
  intros Hmax. eexists. split; [apply lookup_insert_eq|].
  repeat split; cbn; [done|]. apply lookup_insert_eq.
Qed.

(** Objects of the old state are untouched by a new object and a new
    block. *)
Lemma holds_frame h o a fb r ys x (xs : list T) :
  h !! fb = None -> o !! a = None ->
  holds (State h o) x xs ->
  holds (State (<[fb := ys]> h) (<[a := r]> o)) x xs.
Proof.
  intros Hfb Ha (rx & Hx & Hlen & Hmax & Hd). cbn in *.
  exists rx. split; cbn.
  - rewrite lookup_insert_ne; [done|]. intros ->. congruence.
  - repeat split; [done..|].
    destruct (data rx) as [|b off]; [done|].
    destruct Hd as [-> Hb]. split; [done|].
    rewrite lookup_insert_ne; [done|]. intros ->. congruence.
Qed.

(** Invariant rule for the counted loop. *)
Lemma for_from_inv (I : nat -> @state T -> Prop) body :
  forall fuel k st,
    I k st ->
    (forall j s, (k <= j < k + fuel)%nat -> I j s ->
       exists s', body (N.of_nat j) s = Val tt s' /\ I (S j) s') ->
    exists st', for_from fuel (N.of_nat k) body st = Val tt st'
                /\ I (k + fuel)%nat st'.
Proof.
  induction fuel as [|fuel IH]; intros k st HI Hbody.
  - exists st. rewrite Nat.add_0_r. done.
  - destruct (Hbody k st) as (s1 & Hs1 & HI1); [lia|done|].
    destruct (IH (S k) s1 HI1) as (st' & Hrun & HI').
    { intros j s Hj. apply Hbody. lia. }
    exists st'. split.
    + cbn. unfold bind at 1. rewrite Hs1.
      rewrite <- Nat2N.inj_succ. done.
    + replace (k + S fuel)%nat with (S k + fuel)%nat by lia. done.
Qed.

Lemma for_upto_inv (I : nat -> @state T -> Prop) body n st :
  I 0%nat st ->
  (forall j s, (j < N.to_nat n)%nat -> I j s ->
     exists s', body (N.of_nat j) s = Val tt s' /\ I (S j) s') ->
  exists st', for_upto n body st = Val tt st' /\ I (N.to_nat n) st'.
Proof.
  intros H0 Hbody. unfold for_upto.
  destruct (for_from_inv I body (N.to_nat n) 0 st H0) as (st' & Hrun & HI).
  { intros j s Hj. apply Hbody. lia. }
  exists st'. done.
Qed.

(** Writing the next element of a partially filled array. *)
Lemma fill_step (ys pre post : list T) (j : nat) (v : T) :
  ys !! j = Some v ->
  <[(List.length pre + j)%nat := v]>
    (pre ++ take j ys ++ replicate (List.length ys - j) inhabitant ++ post)
  = pre ++ take (S j) ys ++ replicate (List.length ys - S j) inhabitant ++ post.
Proof.
  intros Hv.
  apply lookup_lt_Some in Hv as Hlen.
  rewrite insert_app_r. f_equal.
  replace j with (List.length (take j ys) + 0)%nat at 1
    by (rewrite length_take; lia).
  rewrite insert_app_r.
  destruct (List.length ys - j)%nat as [|m] eqn:E; [lia|].
  replace (List.length ys - S j)%nat with m by lia. cbn.
  rewrite (take_S_r _ _ _ Hv), <- app_assoc. done.
Qed.

(** A loop whose [j]-th round stores [ys !! j] at index [|pre| + j] of the
    block [fb] turns the unwritten stretch after [pre] into [ys]. *)
Lemma fill_loop (h0 : gmap block (list T)) o fb (pre ys post : list T) body n :
  n = N.of_nat (List.length ys) ->
  (forall j v arr, ys !! j = Some v ->
     body (N.of_nat j) (State (<[fb := arr]> h0) o)
     = store (Ptr fb (N.of_nat (List.length pre + j))) v
             (State (<[fb := arr]> h0) o)) ->
  for_upto n body
    (State (<[fb := pre ++ replicate (List.length ys) inhabitant ++ post]> h0) o)
  = Val tt (State (<[fb := pre ++ ys ++ post]> h0) o).
Proof.
  intros -> Hbody.
  pose (I := fun (j : nat) (s : @state T) =>
    s = State (<[fb := pre ++ take j ys
                       ++ replicate (List.length ys - j) inhabitant ++ post]> h0) o).
  edestruct (for_upto_inv I) as (st' & -> & HI).
  - unfold I. rewrite take_0, Nat.sub_0_r. reflexivity.
  - intros j s Hj ->. rewrite Nat2N.id in Hj.
    destruct (lookup_lt_is_Some_2 ys j Hj) as [v Hv].
    eexists. split; [|reflexivity].
    rewrite (Hbody j v _ Hv).
    erewrite store_Some; [|apply lookup_insert_eq|].
    + rewrite insert_insert_eq, Nat2N.id, fill_step by done. done.
    + rewrite !length_app, length_take, length_replicate. lia.
  - unfold I in HI. subst st'.
    rewrite Nat2N.id, Nat.sub_diag, take_ge by lia. done.
Qed.

(** ** The private helper [copy_from] *)

Lemma copy_from_spec this source len r (ys : list T) st :
  objs st !! this = Some r ->
  reads (heap st) source len ys ->
  copy_from this source len st
  = Val tt (State (<[fresh (dom (heap st)) := ys]> (heap st))
                  (<[this := mkString (Ptr (fresh (dom (heap st))) 0) len]>
                     (objs st))).
Proof.
  destruct st as [h o]. cbn. intros Hr [Hlen Hrd].
  unfold copy_from, bind at 1. unfold new_array. cbn.
  set (b := fresh (dom h)).
  unfold bind at 1. unfold set_data. cbn. rewrite Hr.
  set (o1 := <[this := mkString (Ptr b 0) (length r)]> o).
  pose (I := fun (j : nat) (s : @state T) =>
    s = State (<[b := take j ys ++ replicate (N.to_nat len - j) inhabitant]> h) o1).
  unfold bind at 1.
  edestruct (for_upto_inv I) as (st' & -> & HI).
  - unfold I. rewrite take_0. cbn. rewrite Nat.sub_0_r. reflexivity.
  - intros j s Hj ->.
    assert (exists v, ys !! j = Some v) as [v Hv].
    { apply lookup_lt_is_Some. lia. }
    exists (State (<[b := take (S j) ys ++ replicate (N.to_nat len - S j) inhabitant]> h) o1).
    split; [|reflexivity].
    destruct source as [|sb so]; [lia|].
    destruct Hrd as (arr & Harr & Hbound & ->).
    rewrite lookup_take_Some in Hv. destruct Hv as [Hv _].
    rewrite lookup_drop in Hv.
    unfold bind at 1.
    erewrite load_at_Some; cycle 1.
    { rewrite lookup_insert_ne; [exact Harr|].
      symmetry. eapply fresh_block_ne, Harr. }
    { rewrite <- Hv. f_equal. lia. }
    unfold get_data, get_obj, bind, ret. cbn.
    unfold o1 at 1. rewrite lookup_insert_eq. cbn.
    rewrite store_at_base.
    erewrite store_Some; cycle 1.
    { apply lookup_insert_eq. }
    { rewrite length_app, !length_take, length_drop, length_replicate.
      apply lookup_lt_Some in Hv.
      rewrite length_take, length_drop in Hlen. lia. }
    rewrite insert_insert_eq. repeat f_equal.
    rewrite Nat2N.id.
    pose proof (fill_step (take (N.to_nat len) (drop (N.to_nat so) arr))
                  [] [] j v) as Hfs.
    rewrite !app_nil_r in Hfs. cbn in Hfs.
    rewrite length_take, length_drop in Hfs.
    replace (N.to_nat len `min` (List.length arr - N.to_nat so))%nat
      with (N.to_nat len) in Hfs by lia.
    apply Hfs.
    rewrite lookup_take_Some. split; [|lia].
    rewrite lookup_drop. done.
  - unfold I in HI. subst st'. unfold set_length. cbn.
    unfold o1. rewrite lookup_insert_eq, insert_insert_eq. cbn.
    rewrite Nat.sub_diag. cbn. rewrite app_nil_r.
    rewrite take_ge by lia. done.
Qed.

(** ** Construction from a pointer pair *)

Lemma String_range_throws (st : @state T) p q :
  same_array (heap st) p q = true -> offset q < offset p ->
  String_range p q st
  = Exc InvalidRangeException
        (State (heap st) (<[fresh (dom (objs st)) := String_init]> (objs st))).
Proof.
  destruct st as [h o]. cbn. intros Hsame Hlt.
  unfold String_range, bind, alloc_obj, ptr_gt, ask. cbn. rewrite Hsame.
  apply N.ltb_lt in Hlt. rewrite Hlt. done.
Qed.

Lemma String_range_copies (st : @state T) p q ys :
  same_array (heap st) p q = true -> offset p <= offset q ->
  offset q <= SIZE_MAX ->
  reads (heap st) p (offset q - offset p) ys ->
  String_range p q st
  = Val (fresh (dom (objs st)))
        (State (<[fresh (dom (heap st)) := ys]> (heap st))
               (<[fresh (dom (objs st)) :=
                    mkString (Ptr (fresh (dom (heap st))) 0)
                             (offset q - offset p)]> (objs st))).
Proof.
  destruct st as [h o]. cbn. intros Hsame Hle Hmax Hrd.
  unfold String_range, bind at 1. unfold alloc_obj. cbn [heap objs].
  set (a := fresh (dom o)).
  unfold bind at 1. unfold ptr_gt, ask at 1. cbn [heap objs]. rewrite Hsame.
  apply N.ltb_ge in Hle as Hltb. rewrite Hltb.
  unfold bind at 1. unfold ptr_diff, ask at 1. cbn [heap objs].
  assert (same_array h q p = true) as ->.
  { destruct p as [|b1 o1], q as [|b2 o2]; try done. cbn in *.
    destruct (h !! b1) as [arr|] eqn:E; [|done].
    apply bool_decide_eq_true in Hsame as (-> & H1 & H2).
    rewrite E. apply bool_decide_eq_true. done. }
  rewrite size_sub_small by done.
  erewrite bind_Val;
    [|eapply copy_from_spec; [apply lookup_insert_eq|exact Hrd]].
  cbn. rewrite insert_insert_eq. done.
Qed.

(** ** Constructors, [clear] and assignment *)

Lemma String_default_run (st : @state T) :
  String_default st
  = Val (fresh (dom (objs st)))
        (State (heap st) (<[fresh (dom (objs st)) := String_init]> (objs st))).
Proof. done. Qed.

Lemma String_fill_run (st : @state T) count ch :
  String_fill count ch st
  = Val (fresh (dom (objs st)))
        (State (<[fresh (dom (heap st)) := replicate (N.to_nat count) ch]> (heap st))
               (<[fresh (dom (objs st)) :=
                    mkString (Ptr (fresh (dom (heap st))) 0) count]> (objs st))).
Proof.
  destruct st as [h o]. cbn [heap objs].
  set (a := fresh (dom o)). set (fb := fresh (dom h)).
  unfold String_fill.
  rewrite (bind_Val _ _ _ _ _ (String_default_run _)). cbn [heap objs]. fold a.
  erewrite bind_Val; [|reflexivity]. cbn [heap objs]. fold fb.
  erewrite bind_Val; [|by apply set_data_Some, lookup_insert_eq].
  rewrite insert_insert_eq. cbn [length String_init].
  pose proof (fill_loop h (<[a := mkString (Ptr fb 0) 0]> o) fb []
                (replicate (N.to_nat count) ch) []) as Hloop.
  rewrite length_replicate, !app_nil_r in Hloop. cbn [app] in Hloop.
  erewrite bind_Val; cycle 1.
  { apply Hloop; [lia|]. intros j v arr Hv.
    apply lookup_replicate in Hv as [-> _].
    rewrite (bind_Val _ _ _ _ _ (get_data_Some _ _ _ _ (lookup_insert_eq _ _ _))).
    apply store_at_base. }
  erewrite bind_Val; [|by apply set_length_Some, lookup_insert_eq].
  rewrite insert_insert_eq. done.
Qed.

Lemma owns_reads (h : gmap block (list T)) r xs :
  owns h r xs -> reads h (data r) (length r) xs.
Proof.
  intros (Hlen & Hmax & Hd). split; [done|].
  destruct (data r) as [|b off].
  - subst xs. by rewrite Hlen.
  - destruct Hd as [-> Hb]. exists xs. rewrite Hlen.
    repeat split; [done|lia|].
    rewrite Nat2N.id. cbn. by rewrite take_ge.
Qed.

Lemma String_copy_run (st : @state T) other xs :
  holds st other xs ->
  String_copy other st
  = Val (fresh (dom (objs st)))
        (State (<[fresh (dom (heap st)) := xs]> (heap st))
               (<[fresh (dom (objs st)) :=
                    mkString (Ptr (fresh (dom (heap st))) 0)
                             (N.of_nat (List.length xs))]> (objs st))).
Proof.
  destruct st as [h o]. cbn [heap objs]. intros (r & Hr & Hown). cbn in Hr, Hown.
  set (a := fresh (dom o)).
  assert (<[a := String_init]> o !! other = Some r) as Hr'.
  { rewrite lookup_insert_ne; [done|]. symmetry. eapply fresh_addr_ne, Hr. }
  unfold String_copy.
  rewrite (bind_Val _ _ _ _ _ (String_default_run _)). cbn [heap objs]. fold a.
  rewrite (bind_Val _ _ _ _ _ (get_data_Some _ _ _ _ Hr')).
  rewrite (bind_Val _ _ _ _ _ (get_length_Some _ _ _ _ Hr')).
  erewrite bind_Val; cycle 1.
  { eapply copy_from_spec; [apply lookup_insert_eq|]. by apply owns_reads. }
  cbn [heap objs]. rewrite insert_insert_eq.
  destruct Hown as [-> _]. done.
Qed.

Lemma String_move_run (st : @state T) other r :
  objs st !! other = Some r ->
  String_move other st
  = Val (fresh (dom (objs st)))
        (State (heap st)
               (<[other := String_init]> (<[fresh (dom (objs st)) := r]> (objs st)))).
Proof.
  destruct st as [h o]. cbn [heap objs]. intros Hr.
  set (a := fresh (dom o)).
  assert (other <> a) as Hne by (eapply fresh_addr_ne, Hr).
  assert (<[a := String_init]> o !! other = Some r) as Hr'
    by (by rewrite lookup_insert_ne).
  unfold String_move.
  rewrite (bind_Val _ _ _ _ _ (String_default_run _)). cbn [heap objs]. fold a.
  rewrite (bind_Val _ _ _ _ _ (get_data_Some _ _ _ _ Hr')).
  rewrite (bind_Val _ _ _ _ _ (get_length_Some _ _ _ _ Hr')).
  erewrite bind_Val; [|by apply set_data_Some, lookup_insert_eq].
  erewrite bind_Val; [|by apply set_length_Some, lookup_insert_eq].
  rewrite !insert_insert_eq. cbn [data length String_init].
  erewrite bind_Val;
    [|by apply set_data_Some; rewrite lookup_insert_ne by done].
  erewrite bind_Val; [|by apply set_length_Some, lookup_insert_eq].
  rewrite insert_insert_eq. cbn [data]. by destruct r.
Qed.

Lemma delete_array_owned (h : gmap block (list T)) o r xs :
  owns h r xs ->
  delete_array (data r) (State h o) = Val tt (State (released h r) o).
Proof.
  intros (_ & _ & Hd). unfold delete_array, released.
  destruct (data r) as [|b off]; [done|].
  destruct Hd as [-> Hb]. cbn. rewrite Hb. done.
Qed.

Lemma clear_run (st : @state T) a xs :
  holds st a xs ->
  exists r, objs st !! a = Some r /\
    clear a st
    = Val tt (State (released (heap st) r) (<[a := String_init]> (objs st))).
Proof.
  destruct st as [h o]. intros (r & Hr & Hown). cbn in Hr, Hown.
  exists r. split; [done|]. cbn [heap objs]. unfold clear.
  rewrite (bind_Val _ _ _ _ _ (get_data_Some _ _ _ _ Hr)).
  rewrite (bind_Val _ _ _ _ _ (delete_array_owned _ _ _ _ Hown)).
  rewrite (bind_Val _ _ _ _ _ (set_data_Some _ _ _ _ _ Hr)).
  erewrite set_length_Some by apply lookup_insert_eq.
  by rewrite insert_insert_eq.
Qed.

Lemma assign_copy_self (st : @state T) a : assign_copy a a st = Val a st.
Proof. unfold assign_copy. by rewrite decide_False by (intros Hn; done). Qed.

Lemma assign_move_self (st : @state T) a : assign_move a a st = Val a st.
Proof. unfold assign_move. by rewrite decide_False by (intros Hn; done). Qed.

Lemma assign_move_run (st : @state T) this other rt ro xs :
  this <> other ->
  objs st !! this = Some rt -> owns (heap st) rt xs ->
  objs st !! other = Some ro ->
  assign_move this other st
  = Val this (State (released (heap st) rt)
                    (<[other := String_init]> (<[this := ro]> (objs st)))).
Proof.
  destruct st as [h o]. cbn [heap objs]. intros Hne Ht Hown Ho.
  unfold assign_move. rewrite decide_True by done.
  erewrite bind_Val; [done|].
  rewrite (bind_Val _ _ _ _ _ (get_data_Some _ _ _ _ Ht)).
  rewrite (bind_Val _ _ _ _ _ (delete_array_owned _ _ _ _ Hown)).
  rewrite (bind_Val _ _ _ _ _ (get_data_Some _ _ _ _ Ho)).
  rewrite (bind_Val _ _ _ _ _ (set_data_Some _ _ _ _ _ Ht)).
  assert (<[this := mkString (data ro) (length rt)]> o !! other = Some ro) as Ho'
    by (by rewrite lookup_insert_ne).
  rewrite (bind_Val _ _ _ _ _ (get_length_Some _ _ _ _ Ho')).
  erewrite bind_Val; [|by apply set_length_Some, lookup_insert_eq].
  rewrite insert_insert_eq. cbn [data].
  erewrite bind_Val;
    [|by apply set_data_Some; rewrite lookup_insert_ne by done].
  erewrite set_length_Some by apply lookup_insert_eq.
  rewrite insert_insert_eq. cbn [data]. by destruct ro.
Qed.

Lemma holds_init (h : gmap block (list T)) o a :
  o !! a = Some String_init -> holds (State h o) a [].
Proof.
  intros Ha. exists String_init. split; [done|].
  repeat split. cbn. unfold SIZE_MAX, size_t_modulus. lia.
Qed.

Lemma owns_released (h : gmap block (list T)) rt r xs :
  owns h r xs ->
  match data rt, data r with Ptr b1 _, Ptr b2 _ => b1 <> b2 | _, _ => True end ->
  owns (released h rt) r xs.
Proof.
  intros (Hlen & Hmax & Hd) Hsep. repeat split; [done..|].
  unfold released. destruct (data rt) as [|b1 o1]; [done|].
  destruct (data r) as [|b2 o2]; [done|].
  destruct Hd as [-> Hb]. split; [done|]. by rewrite lookup_delete_ne.
Qed.

(** ** Observers *)

Lemma size_holds (st : @state T) a xs :
  holds st a xs -> size a st = Val (N.of_nat (List.length xs)) st.
Proof.
  destruct st as [h o]. intros (r & Hr & Hlen & _). cbn in Hr.
  unfold size. rewrite (get_length_Some _ _ _ _ Hr). by rewrite Hlen.
Qed.

Lemma subscript_throws (st : @state T) a xs i :
  holds st a xs -> N.of_nat (List.length xs) <= i ->
  subscript a i st = Exc (OutOfRangeException i) st.
Proof.
  destruct st as [h o]. intros (r & Hr & Hlen & _) Hi. cbn in Hr.
  unfold subscript, bind. rewrite (get_length_Some _ _ _ _ Hr).
  rewrite Hlen. destruct (decide _); [done|lia].
Qed.

Lemma subscript_inside (st : @state T) a xs i :
  holds st a xs -> i < N.of_nat (List.length xs) ->
  exists b, subscript a i st = Val (Ptr b i) st /\ heap st !! b = Some xs.
Proof.
  destruct st as [h o]. intros (r & Hr & Hlen & Hmax & Hd) Hi. cbn in *.
  unfold subscript, bind. rewrite (get_length_Some _ _ _ _ Hr).
  rewrite Hlen. destruct (decide _); [lia|].
  rewrite (get_data_Some _ _ _ _ Hr).
  destruct (data r) as [|b off].
  { subst xs. cbn in Hi. lia. }
  destruct Hd as [-> Hb]. exists b. split; [|done].
  unfold ptr_add, ask. cbn. rewrite Hb.
  destruct (decide _); [done|lia].
Qed.

Lemma at_holds (st : @state T) a xs i x :
  holds st a xs -> xs !! N.to_nat i = Some x -> at_ a i st = Val x st.
Proof.
  intros Hh Hx. apply lookup_lt_Some in Hx as Hlt.
  destruct (subscript_inside st a xs i Hh) as (b & Hs & Hb); [lia|].
  unfold at_, bind. rewrite Hs. unfold load, ask. cbn. by rewrite Hb, Hx.
Qed.

(** C3: [operator[]] throws [OutOfRangeException(index)] exactly when
    [index >= length]; for [index < length] it throws nothing and yields the
    lvalue of the element stored at position [index]. *)
Theorem subscript_spec (st : @state T) a xs i :
  holds st a xs ->
  ((exists e st', subscript a i st = Exc e st')
   <-> N.of_nat (List.length xs) <= i) /\
  (N.of_nat (List.length xs) <= i ->
   subscript a i st = Exc (OutOfRangeException i) st) /\
  (i < N.of_nat (List.length xs) ->
   exists p x, subscript a i st = Val p st /\ load p st = Val x st /\
               xs !! N.to_nat i = Some x /\ at_ a i st = Val x st).
Proof.
  intros Hh.
  assert (i < N.of_nat (List.length xs) ->
          exists p x, subscript a i st = Val p st /\ load p st = Val x st /\
                      xs !! N.to_nat i = Some x /\ at_ a i st = Val x st)
    as Hin.
  { intros Hi.
    destruct (subscript_inside st a xs i Hh Hi) as (b & Hs & Hb).
    destruct (lookup_lt_is_Some_2 xs (N.to_nat i)) as [x Hx]; [lia|].
    exists (Ptr b i), x. repeat split; [done| |done|by eapply at_holds].
    unfold load, ask. cbn. by rewrite Hb, Hx. }
  split; [split|split].
  - intros (e & st' & He).
    destruct (decide (N.of_nat (List.length xs) <= i)) as [|Hn]; [done|].
    destruct Hin as (p & x & Hs & _); [lia|]. congruence.
  - intros Hi. eexists _, _. by eapply subscript_throws.
  - by apply subscript_throws.
  - exact Hin.
Qed.

(** ** Construction from a pointer pair, as the caller sees it *)

(** C4: [String(begin, end)] for two pointers into one array throws
    [InvalidRangeException] exactly when [begin > end]; for [begin == end] it
    builds an empty sequence, and otherwise a sequence of [end - begin]
    elements, the elements of the range in order.  A pair of null pointers
    is an empty range as well. *)
Theorem String_range_spec (st : @state T) b arr ob oe :
  heap st !! b = Some arr ->
  N.of_nat (List.length arr) <= SIZE_MAX ->
  ob <= N.of_nat (List.length arr) ->
  oe <= N.of_nat (List.length arr) ->
  ((exists e st', String_range (Ptr b ob) (Ptr b oe) st = Exc e st')
   <-> oe < ob) /\
  (oe < ob -> exists st',
     String_range (Ptr b ob) (Ptr b oe) st = Exc InvalidRangeException st') /\
  (ob <= oe -> exists this st' ys,
     String_range (Ptr b ob) (Ptr b oe) st = Val this st' /\
     holds st' this ys /\
     N.of_nat (List.length ys) = oe - ob /\
     (forall i, (i < List.length ys)%nat ->
                ys !! i = arr !! (N.to_nat ob + i)%nat) /\
     (ob = oe -> ys = [])) /\
  (exists this st',
     String_range Null Null st = Val this st' /\ holds st' this []).
Proof.
  intros Hb Hmax Hob Hoe.
  assert (same_array (heap st) (Ptr b ob) (Ptr b oe) = true) as Hsame.
  { cbn. rewrite Hb. by apply bool_decide_eq_true. }
  assert (ob <= oe -> exists this st' ys,
     String_range (Ptr b ob) (Ptr b oe) st = Val this st' /\
     holds st' this ys /\
     N.of_nat (List.length ys) = oe - ob /\
     (forall i, (i < List.length ys)%nat ->
                ys !! i = arr !! (N.to_nat ob + i)%nat) /\
     (ob = oe -> ys = [])) as Hcopy.
  { intros Hle.
    set (ys := take (N.to_nat (oe - ob)) (drop (N.to_nat ob) arr)).
    assert (N.of_nat (List.length ys) = oe - ob) as Hlen.
    { unfold ys. rewrite length_take, length_drop. lia. }
    eexists _, _, ys. split.
    { apply String_range_copies; cbn; [done|done|lia|].
      split; [done|]. exists arr. repeat split; [done|lia]. }
    split.
    { cbn [offset]. rewrite <- Hlen. apply holds_new. lia. }
    split; [done|]. split.
    - intros i Hi. unfold ys. rewrite lookup_take_lt by lia.
      apply lookup_drop.
    - intros ->. unfold ys. by rewrite N.sub_diag. }
  split; [split|split; [|split]].
  - intros (e & st' & He).
    destruct (decide (oe < ob)) as [|Hn]; [done|].
    destruct Hcopy as (this & st'' & ys & Hrun & _); [lia|]. congruence.
  - intros Hlt. eexists _, _. by apply String_range_throws.
  - intros Hlt. eexists. by apply String_range_throws.
  - exact Hcopy.
  - eexists _, _. split.
    + by apply (String_range_copies st Null Null []).
    + apply (holds_new _ _ _ _ []). by vm_compute.
Qed.

(** ** Slicing *)

Lemma substr_throws (st : @state T) a xs start len :
  holds st a xs -> N.of_nat (List.length xs) < start ->
  substr a start len st = Exc (OutOfRangeException start) st.
Proof.
  destruct st as [h o]. intros (r & Hr & Hlen & _) Hi. cbn in Hr.
  unfold substr, bind. rewrite (get_length_Some _ _ _ _ Hr).
  rewrite Hlen. destruct (decide _); [done|lia].
Qed.

Lemma substr_copies (st : @state T) a xs start len :
  holds st a xs -> start <= N.of_nat (List.length xs) ->
  let ys := take (N.to_nat (N.min len (N.of_nat (List.length xs) - start)))
                 (drop (N.to_nat start) xs) in
  substr a start len st
  = Val (fresh (dom (objs st)))
        (State (<[fresh (dom (heap st)) := ys]> (heap st))
               (<[fresh (dom (objs st)) :=
                    mkString (Ptr (fresh (dom (heap st))) 0)
                             (N.of_nat (List.length ys))]> (objs st))).
Proof.
  destruct st as [h o]. intros (r & Hr & Hlen & Hmax & Hd) Hi ys. cbn in *.
  assert (N.of_nat (List.length ys)
          = N.min len (N.of_nat (List.length xs) - start)) as Hys.
  { unfold ys. rewrite length_take, length_drop. lia. }
  unfold substr. rewrite (bind_Val _ _ _ _ _ (get_length_Some _ _ _ _ Hr)).
  rewrite Hlen. destruct (decide _); [lia|].
  rewrite size_sub_small by lia.
  rewrite (bind_Val _ _ _ _ _ (get_data_Some _ _ _ _ Hr)).
  destruct (data r) as [|b off].
  - subst xs. cbn in Hi. assert (start = 0) as -> by lia.
    cbn in Hys. rewrite N.min_0_r in Hys.
    cbn. rewrite N.min_0_r.
    rewrite (bind_Val _ _ _ _ _ (ptr_add_Null _)).
    rewrite (bind_Val _ _ _ _ _ (ptr_add_Null _)).
    rewrite (String_range_copies _ _ _ ys); cbn; [by rewrite Hys|done|done|done|].
    split; [by rewrite Hys|done].
  - destruct Hd as [-> Hb].
    erewrite bind_Val; [|by eapply ptr_add_Ptr; [exact Hb|lia]].
    erewrite bind_Val; [|by eapply ptr_add_Ptr; [exact Hb|lia]].
    rewrite (String_range_copies _ _ _ ys); cbn.
    + repeat f_equal. lia.
    + rewrite Hb. apply bool_decide_eq_true. repeat split; lia.
    + lia.
    + lia.
    + split; [lia|]. exists xs. repeat split; [done|lia|].
      unfold ys. f_equal. lia.
Qed.

(** C1: [substr(start, len)] throws [OutOfRangeException(start)] when
    [start > length]; for [start <= length] it throws nothing and returns a
    new object that owns a fresh array of exactly [min(len, length - start)]
    elements, element [i] being the receiver's element [start + i]; the
    result is empty for [start == length], whatever [len] is. *)
Theorem substr_spec (st : @state T) a xs start len :
  holds st a xs ->
  (N.of_nat (List.length xs) < start ->
   substr a start len st = Exc (OutOfRangeException start) st) /\
  (start <= N.of_nat (List.length xs) ->
   exists r st' ys rr fb,
     substr a start len st = Val r st' /\
     holds st' r ys /\
     size r st' = Val (N.min len (N.of_nat (List.length xs) - start)) st' /\
     N.of_nat (List.length ys)
       = N.min len (N.of_nat (List.length xs) - start) /\
     (forall i, (i < List.length ys)%nat ->
                ys !! i = xs !! (N.to_nat start + i)%nat) /\
     (forall i x, (i < List.length ys)%nat ->
                  xs !! (N.to_nat start + i)%nat = Some x ->
                  at_ r (N.of_nat i) st' = Val x st') /\
     (start = N.of_nat (List.length xs) -> ys = []) /\
     objs st !! r = None /\
     objs st' !! r = Some rr /\ data rr = Ptr fb 0 /\ heap st !! fb = None /\
     (forall x zs, holds st x zs -> holds st' x zs /\ separate st' r x)).
Proof.
  intros Hh. split; [by apply substr_throws|].
  intros Hi.
  pose proof (substr_copies st a xs start len Hh Hi) as Hrun.
  cbn zeta in Hrun.
  set (ys := take (N.to_nat (N.min len (N.of_nat (List.length xs) - start)))
                  (drop (N.to_nat start) xs)) in *.
  assert (N.of_nat (List.length ys)
          = N.min len (N.of_nat (List.length xs) - start)) as Hys.
  { unfold ys. rewrite length_take, length_drop. lia. }
  destruct Hh as (r & Hr & Hlen & Hmax & Hd).
  assert (holds
    (State (<[fresh (dom (heap st)) := ys]> (heap st))
           (<[fresh (dom (objs st)) :=
                mkString (Ptr (fresh (dom (heap st))) 0)
                         (N.of_nat (List.length ys))]> (objs st)))
    (fresh (dom (objs st))) ys) as Hres by (apply holds_new; lia).
  assert (forall i, (i < List.length ys)%nat ->
                    ys !! i = xs !! (N.to_nat start + i)%nat) as Hel.
  { intros i Hlt. unfold ys. rewrite lookup_take_lt by lia. apply lookup_drop. }
  eexists _, _, ys, _, _. split; [exact Hrun|].
  split; [exact Hres|].
  split; [by rewrite (size_holds _ _ _ Hres), Hys|].
  split; [done|]. split; [exact Hel|]. split.
  { intros i x Hlt Hx. apply (at_holds _ _ ys); [exact Hres|].
    by rewrite Nat2N.id, Hel. }
  split.
  { intros ->. unfold ys. rewrite N.sub_diag, N.min_0_r. done. }
  split; [apply fresh_addr_None|].
  cbn [objs]. split; [apply lookup_insert_eq|]. cbn [data].
  split; [done|]. split; [apply fresh_block_None|].
  intros x zs Hx. split.
  - destruct st as [h o]. apply holds_frame;
      [apply fresh_block_None|apply fresh_addr_None|done].
  - destruct Hx as (rx & Hrx & _ & _ & Hdx).
    intros ra rb. cbn [objs]. rewrite lookup_insert_eq.
    rewrite lookup_insert_ne by (symmetry; eapply fresh_addr_ne, Hrx).
    intros [= <-] Hrb. cbn [data]. assert (rb = rx) as -> by congruence.
    destruct (data rx) as [|bx offx]; [done|].
    destruct Hdx as [_ Hbx]. symmetry. eapply fresh_block_ne, Hbx.
Qed.

(** ** Loops that read one object and fill the array of another *)

Lemma read_elem {B} (h : gmap block (list T)) o fb arr a r xs j x
    (k : T -> M B) :
  o !! a = Some r -> owns h r xs -> h !! fb = None ->
  xs !! j = Some x ->
  (d <- get_data a ;; v <- load_at d (N.of_nat j) ;; k v)
    (State (<[fb := arr]> h) o)
  = k x (State (<[fb := arr]> h) o).
Proof.
  intros Ha (Hlen & Hmax & Hd) Hfb Hx.
  rewrite (bind_Val _ _ _ _ _ (get_data_Some _ _ _ _ Ha)).
  destruct (data r) as [|b off]; [by subst xs|].
  destruct Hd as [-> Hb].
  erewrite bind_Val; [done|].
  eapply load_at_Some.
  - rewrite lookup_insert_ne; [exact Hb|]. intros ->. congruence.
  - rewrite N.add_0_l, Nat2N.id. exact Hx.
Qed.

Lemma write_elem (h : gmap block (list T)) o res rr fb i (v : T) :
  o !! res = Some rr -> data rr = Ptr fb 0 ->
  (rd <- get_data res ;; store_at rd i v) (State h o)
  = store (Ptr fb i) v (State h o).
Proof.
  intros Hres Hd.
  rewrite (bind_Val _ _ _ _ _ (get_data_Some _ _ _ _ Hres)), Hd.
  apply store_at_base.
Qed.

(** ** [transformed] *)

Lemma transformed_run (st : @state T) a xs (f : T -> T) :
  holds st a xs ->
  transformed a f st
  = Val (fresh (dom (objs st)))
        (State (<[fresh (dom (heap st)) := f <$> xs]> (heap st))
               (<[fresh (dom (objs st)) :=
                    mkString (Ptr (fresh (dom (heap st))) 0)
                             (N.of_nat (List.length xs))]> (objs st))).
Proof.
  destruct st as [h o]. cbn [heap objs]. intros (r & Hr & Hown). cbn in Hr, Hown.
  set (res := fresh (dom o)). set (fb := fresh (dom h)).
  assert (a <> res) as Hne by (eapply fresh_addr_ne, Hr).
  pose proof Hown as (Hlen & Hmax & Hd).
  unfold transformed.
  rewrite (bind_Val _ _ _ _ _ (String_default_run _)). cbn [heap objs]. fold res.
  erewrite bind_Val;
    [|by apply get_length_Some; rewrite lookup_insert_ne by done].
  erewrite bind_Val; [|reflexivity]. cbn [heap objs]. fold fb.
  erewrite bind_Val; [|by apply set_data_Some, lookup_insert_eq].
  rewrite insert_insert_eq. cbn [length String_init].
  set (o1 := <[res := mkString (Ptr fb 0) 0]> o).
  pose proof (fill_loop h o1 fb [] (f <$> xs) []) as Hloop.
  rewrite length_fmap, !app_nil_r in Hloop. cbn [app] in Hloop.
  rewrite Hlen, Nat2N.id.
  erewrite bind_Val; cycle 1.
  { apply Hloop; [done|]. intros j v arr Hv.
    apply list_lookup_fmap_Some in Hv as (x & -> & Hx).
    erewrite (read_elem h o1 fb arr a r xs j x);
      [|by unfold o1; rewrite lookup_insert_ne|done|apply fresh_block_None|done].
    eapply write_elem; [apply lookup_insert_eq|done]. }
  erewrite bind_Val; [|by apply set_length_Some, lookup_insert_eq].
  unfold o1. rewrite insert_insert_eq. done.
Qed.

(** C8: [transformed(f)] returns a new object of the receiver's length whose
    element at every index [i] is [f] applied to the receiver's element at
    [i]; the receiver holds the same elements as before. *)
Theorem transformed_spec (st : @state T) a xs (f : T -> T) :
  holds st a xs ->
  exists r st' ys,
    transformed a f st = Val r st' /\
    objs st !! r = None /\
    holds st' r ys /\
    List.length ys = List.length xs /\
    (forall i x, xs !! i = Some x -> ys !! i = Some (f x)) /\
    holds st' a xs.
Proof.
  intros Hh. eexists _, _, (f <$> xs).
  split; [by apply transformed_run|].
  split; [apply fresh_addr_None|].
  destruct Hh as (r & Hr & Hlen & Hmax & Hd).
  split.
  { rewrite <- (length_fmap f xs). apply holds_new.
    rewrite length_fmap. by rewrite <- Hlen. }
  split; [apply length_fmap|]. split.
  { intros i x Hx. by rewrite list_lookup_fmap, Hx. }
  destruct st as [h o]. apply holds_frame;
    [apply fresh_block_None|apply fresh_addr_None|].
  by exists r.
Qed.

(** ** Concatenation *)

Lemma concat_run (st : @state T) a b xs ys :
  holds st a xs -> holds st b ys ->
  N.of_nat (List.length xs) + N.of_nat (List.length ys) <= SIZE_MAX ->
  concat a b st
  = Val (fresh (dom (objs st)))
        (State (<[fresh (dom (heap st)) := xs ++ ys]> (heap st))
               (<[fresh (dom (objs st)) :=
                    mkString (Ptr (fresh (dom (heap st))) 0)
                             (N.of_nat (List.length (xs ++ ys)))]> (objs st))).
Proof.
  destruct st as [h o]. cbn [heap objs].
  intros (ra & Hra & Howna) (rb & Hrb & Hownb) Hfit. cbn in Hra, Howna, Hrb, Hownb.
  set (res := fresh (dom o)). set (fb := fresh (dom h)).
  assert (a <> res) as Hnea by (eapply fresh_addr_ne, Hra).
  assert (b <> res) as Hneb by (eapply fresh_addr_ne, Hrb).
  pose proof Howna as (Hlena & _ & _). pose proof Hownb as (Hlenb & _ & _).
  unfold concat.
  rewrite (bind_Val _ _ _ _ _ (String_default_run _)). cbn [heap objs]. fold res.
  erewrite bind_Val;
    [|by apply get_length_Some; rewrite lookup_insert_ne by done].
  erewrite bind_Val;
    [|by apply get_length_Some; rewrite lookup_insert_ne by done].
  rewrite Hlena, Hlenb, size_add_small by done.
  erewrite bind_Val; [|reflexivity]. cbn [heap objs]. fold fb.
  erewrite bind_Val; [|by apply set_data_Some, lookup_insert_eq].
  rewrite insert_insert_eq. cbn [length String_init].
  set (o1 := <[res := mkString (Ptr fb 0) 0]> o).
  replace (N.to_nat (N.of_nat (List.length xs) + N.of_nat (List.length ys)))
    with (List.length xs + List.length ys)%nat by lia.
  rewrite replicate_add.
  erewrite bind_Val; cycle 1.
  { apply (fill_loop h o1 fb [] xs (replicate (List.length ys) inhabitant));
      [done|].
    intros j v arr Hv.
    erewrite (read_elem h o1 fb arr a ra xs j v);
      [|by unfold o1; rewrite lookup_insert_ne|done|apply fresh_block_None|done].
    eapply write_elem; [apply lookup_insert_eq|done]. }
  cbn [app].
  erewrite bind_Val; cycle 1.
  { pose proof (fill_loop h o1 fb xs ys []) as Hloop.
    rewrite !app_nil_r in Hloop.
    apply Hloop; [done|].
    intros j v arr Hv. apply lookup_lt_Some in Hv as Hj.
    erewrite (read_elem h o1 fb arr b rb ys j v);
      [|by unfold o1; rewrite lookup_insert_ne|done|apply fresh_block_None|done].
    rewrite size_add_small by lia.
    replace (N.of_nat (List.length xs) + N.of_nat j)
      with (N.of_nat (List.length xs + j)) by lia.
    eapply write_elem; [apply lookup_insert_eq|done]. }
  erewrite bind_Val; [|by apply set_length_Some, lookup_insert_eq].
  unfold o1. rewrite insert_insert_eq, length_app. cbn [data].
  replace (N.of_nat (List.length xs) + N.of_nat (List.length ys))
    with (N.of_nat (List.length xs + List.length ys)) by lia.
  done.
Qed.

Lemma concat_holds (st : @state T) a b xs ys :
  holds st a xs -> holds st b ys ->
  N.of_nat (List.length xs) + N.of_nat (List.length ys) <= SIZE_MAX ->
  exists r st',
    concat a b st = Val r st' /\
    objs st !! r = None /\
    holds st' r (xs ++ ys) /\
    (forall x zs, holds st x zs -> holds st' x zs).
Proof.
  intros Ha Hb Hfit. eexists _, _.
  split; [by apply concat_run|].
  split; [apply fresh_addr_None|]. split.
  - apply holds_new. rewrite length_app. lia.
  - intros x zs Hx. destruct st as [h o].
    by apply holds_frame; [apply fresh_block_None|apply fresh_addr_None|].
Qed.

Lemma String_default_holds (st : @state T) :
  exists r st',
    String_default st = Val r st' /\
    objs st !! r = None /\
    holds st' r [] /\
    (forall x zs, holds st x zs -> holds st' x zs).
Proof.
  eexists _, _. split; [apply String_default_run|].
  split; [apply fresh_addr_None|]. split.
  - apply holds_init, lookup_insert_eq.
  - intros x zs (rx & Hrx & Hown). exists rx. split; [|done]. cbn.
    rewrite lookup_insert_ne; [done|]. symmetry. eapply fresh_addr_ne, Hrx.
Qed.

(** ** Repetition *)

Lemma length_tiles (t : nat) (xs : list T) :
  List.length (List.concat (replicate t xs)) = (t * List.length xs)%nat.
Proof.
  induction t as [|t IH]; [done|]. cbn. rewrite length_app, IH. done.
Qed.

Lemma lookup_tiles (t k i : nat) (xs : list T) :
  (k < t)%nat -> (i < List.length xs)%nat ->
  List.concat (replicate t xs) !! (k * List.length xs + i)%nat = xs !! i.
Proof.
  revert k. induction t as [|t IH]; intros k Hk Hi; [lia|].
  cbn [replicate List.concat]. destruct k as [|k].
  - cbn. by rewrite lookup_app_l.
  - rewrite lookup_app_r by lia.
    replace (S k * List.length xs + i - List.length xs)%nat
      with (k * List.length xs + i)%nat by lia.
    apply IH; lia.
Qed.

Lemma repeat_run (st : @state T) a xs times :
  holds st a xs -> (0 < times <= INT_MAX)%Z ->
  N.of_nat (List.length xs) * Z.to_N times <= SIZE_MAX ->
  repeat_ a times st
  = Val (fresh (dom (objs st)))
        (State (<[fresh (dom (heap st)) :=
                    List.concat (replicate (Z.to_nat times) xs)]> (heap st))
               (<[fresh (dom (objs st)) :=
                    mkString (Ptr (fresh (dom (heap st))) 0)
                             (N.of_nat (List.length xs) * Z.to_N times)]>
                  (objs st))).
Proof.
  destruct st as [h o]. cbn [heap objs].
  intros (r & Hr & Hown) Ht Hfit. cbn in Hr, Hown.
  set (res := fresh (dom o)). set (fb := fresh (dom h)).
  assert (a <> res) as Hne by (eapply fresh_addr_ne, Hr).
  pose proof Hown as (Hlen & Hmax & Hd).
  unfold repeat_. rewrite decide_False by lia.
  rewrite (bind_Val _ _ _ _ _ (String_default_run _)). cbn [heap objs]. fold res.
  erewrite bind_Val;
    [|by apply get_length_Some; rewrite lookup_insert_ne by done].
  rewrite to_size_t_small
    by (unfold INT_MAX, SIZE_MAX, size_t_modulus in *; lia).
  rewrite Hlen, size_mul_small by done.
  erewrite bind_Val; [|reflexivity]. cbn [heap objs]. fold fb.
  erewrite bind_Val; [|by apply set_data_Some, lookup_insert_eq].
  rewrite insert_insert_eq. cbn [length String_init].
  set (o1 := <[res := mkString (Ptr fb 0) 0]> o).
  set (n := Z.to_nat times).
  pose (I := fun (k : nat) (s : @state T) =>
    s = State (<[fb := List.concat (replicate k xs)
                       ++ replicate ((n - k) * List.length xs) inhabitant]> h) o1).
  unfold bind at 1.
  edestruct (for_upto_inv I) as (st' & -> & HI).
  - unfold I. cbn. rewrite Nat.sub_0_r. do 3 f_equal. lia.
  - intros k s Hk ->. eexists. split; [|reflexivity].
    replace (n - k)%nat with (S (n - S k)) by lia.
    cbn [Nat.mul]. rewrite replicate_add.
    rewrite (fill_loop h o1 fb (List.concat (replicate k xs)) xs
               (replicate ((n - S k) * List.length xs) inhabitant)); [|done|].
    + rewrite replicate_S_end, concat_app. cbn [List.concat].
      rewrite app_nil_r, <- app_assoc. done.
    + intros j v arr Hv. apply lookup_lt_Some in Hv as Hj.
      erewrite (read_elem h o1 fb arr a r xs j v);
        [|by unfold o1; rewrite lookup_insert_ne|done|apply fresh_block_None|done].
      rewrite length_tiles.
      assert (N.of_nat k * N.of_nat (List.length xs) + N.of_nat j
              < N.of_nat (List.length xs) * Z.to_N times) as Hidx by nia.
      rewrite size_mul_small by lia. rewrite size_add_small by lia.
      replace (N.of_nat k * N.of_nat (List.length xs) + N.of_nat j)
        with (N.of_nat (k * List.length xs + j)) by lia.
      eapply write_elem; [apply lookup_insert_eq|done].
  - unfold I in HI. subst st'.
    replace (N.to_nat (Z.to_N times)) with n by lia.
    rewrite Nat.sub_diag. cbn [Nat.mul replicate]. rewrite app_nil_r.
    erewrite bind_Val; [|by apply set_length_Some, lookup_insert_eq].
    unfold o1. rewrite insert_insert_eq. done.
Qed.

(** A counted loop whose round [m] is undefined, the rounds before it being
    defined, is undefined when it has more than [m] rounds. *)
Lemma for_from_Undef (body : N -> M unit) :
  forall m fuel k (st st_m : @state T),
    for_from m (N.of_nat k) body st = Val tt st_m ->
    body (N.of_nat (k + m)) st_m = Undef ->
    (m < fuel)%nat ->
    for_from fuel (N.of_nat k) body st = Undef.
Proof.
  induction m as [|m IH]; intros fuel k st st_m Hrun Hbad Hlt.
  - cbn in Hrun. injection Hrun as <-. rewrite Nat.add_0_r in Hbad.
    destruct fuel as [|fuel]; [lia|]. cbn. unfold bind. by rewrite Hbad.
  - destruct fuel as [|fuel]; [lia|]. cbn in Hrun |- *.
    unfold bind in Hrun |- *.
    destruct (body (N.of_nat k) st) as [[] s1| |]; [|done..].
    rewrite <- Nat2N.inj_succ in Hrun |- *.
    apply (IH fuel (S k) s1 st_m Hrun); [|lia].
    by replace (S k + m)%nat with (k + S m)%nat by lia.
Qed.

(** When the wrapped product [length * times] is smaller than [length], the
    first tile already runs past the end of the new array. *)
Lemma repeat_overflow (st : @state T) a xs times :
  holds st a xs -> (0 < times <= INT_MAX)%Z ->
  wrap (N.of_nat (List.length xs) * Z.to_N times) < N.of_nat (List.length xs) ->
  repeat_ a times st = Undef.
Proof.
  destruct st as [h o].
  intros (r & Hr & Hown) Ht Hwrap. cbn [heap objs] in Hr, Hown.
  set (res := fresh (dom o)). set (fb := fresh (dom h)).
  assert (a <> res) as Hne by (eapply fresh_addr_ne, Hr).
  pose proof Hown as (Hlen & Hmax & Hd).
  unfold repeat_. rewrite decide_False by lia.
  rewrite (bind_Val _ _ _ _ _ (String_default_run _)). cbn [heap objs]. fold res.
  erewrite bind_Val;
    [|by apply get_length_Some; rewrite lookup_insert_ne by done].
  rewrite to_size_t_small
    by (unfold INT_MAX, SIZE_MAX, size_t_modulus in *; lia).
  rewrite Hlen. unfold size_mul at 1 3.
  set (m := wrap (N.of_nat (List.length xs) * Z.to_N times)) in *.
  erewrite bind_Val; [|reflexivity]. cbn [heap objs]. fold fb.
  erewrite bind_Val; [|by apply set_data_Some, lookup_insert_eq].
  rewrite insert_insert_eq. cbn [length String_init].
  set (o1 := <[res := mkString (Ptr fb 0) 0]> o).
  assert (m <= SIZE_MAX) as Hm.
  { unfold m, wrap, SIZE_MAX, size_t_modulus.
    pose proof (N.mod_upper_bound
                  (N.of_nat (List.length xs) * Z.to_N times) (2 ^ 64)). lia. }
  set (inner := fun t : N => for_upto (N.of_nat (List.length xs)) (fun i =>
      sd <- get_data a ;; v <- load_at sd i ;;
      rd <- get_data res ;; store_at rd (size_add (size_mul t (N.of_nat (List.length xs))) i) v)).
  assert (inner 0 (State (<[fb := replicate (N.to_nat m) inhabitant]> h) o1)
          = Undef) as Hinner.
  { unfold inner, for_upto. rewrite Nat2N.id.
    apply (for_from_Undef _ (N.to_nat m) _ 0%nat _
             (State (<[fb := take (N.to_nat m) xs]> h) o1)); [| |lia].
    - pose proof (fill_loop h o1 fb [] (take (N.to_nat m) xs) []) as Hloop.
      rewrite length_take, !app_nil_r in Hloop. cbn [app] in Hloop.
      replace (N.to_nat m `min` List.length xs)%nat with (N.to_nat m)
        in Hloop by lia.
      unfold for_upto in Hloop.
      specialize (Hloop (fun i =>
        sd <- get_data a ;; v <- load_at sd i ;;
        rd <- get_data res ;;
        store_at rd (size_add (size_mul 0 (N.of_nat (List.length xs))) i) v)
        (N.of_nat (N.to_nat m)) eq_refl).
      rewrite Nat2N.id in Hloop. apply Hloop.
      intros j v arr Hv. apply lookup_take_Some in Hv as [Hv Hj].
      erewrite (read_elem h o1 fb arr a r xs j v);
        [|by unfold o1; rewrite lookup_insert_ne|done|apply fresh_block_None|done].
      rewrite size_mul_0_l, size_add_small by lia. rewrite N.add_0_l.
      eapply write_elem; [apply lookup_insert_eq|done].
    - destruct (lookup_lt_is_Some_2 xs (N.to_nat m)) as [v Hv]; [lia|].
      cbn [Nat.add].
      erewrite (read_elem h o1 fb _ a r xs (N.to_nat m) v);
        [|by unfold o1; rewrite lookup_insert_ne|done|apply fresh_block_None|done].
      rewrite size_mul_0_l, size_add_small by lia. rewrite N.add_0_l.
      erewrite write_elem; [|apply lookup_insert_eq|done].
      unfold store. cbn [heap]. rewrite lookup_insert_eq.
      rewrite decide_False; [done|]. rewrite length_take. lia. }
  unfold bind at 1. fold inner. unfold for_upto at 1.
  destruct (N.to_nat (Z.to_N times)) as [|k] eqn:E; [lia|].
  cbn [for_from]. unfold bind at 1. by rewrite Hinner.
Qed.

(** C5, as the code has it: [s * times] with [times <= 0] is a
    default-constructed, empty sequence and throws nothing; with [times > 0]
    and [s.size() * times] no larger than [SIZE_MAX] it is a new sequence of
    size [s.size() * times] whose element at index [k * s.size() + i], for
    [k < times] and [i < s.size()], is the element of [s] at [i]. *)
Theorem repeat_spec (st : @state T) a xs t :
  holds st a xs -> (INT_MIN <= t <= INT_MAX)%Z ->
  ((t <= 0)%Z ->
   exists r st',
     repeat_ a t st = Val r st' /\ objs st !! r = None /\
     holds st' r [] /\ size r st' = Val 0 st') /\
  ((0 < t)%Z -> N.of_nat (List.length xs) * Z.to_N t <= SIZE_MAX ->
   exists r st' ys,
     repeat_ a t st = Val r st' /\ objs st !! r = None /\
     holds st' r ys /\
     size r st' = Val (N.of_nat (List.length xs) * Z.to_N t) st' /\
     (forall k i x, (k < Z.to_nat t)%nat -> xs !! i = Some x ->
                    ys !! (k * List.length xs + i)%nat = Some x) /\
     holds st' a xs) /\
  repeat_left t a st = repeat_ a t st.
Proof.
  intros Hh Ht. split; [|split; [|done]].
  - intros Hle. unfold repeat_. rewrite decide_True by done.
    destruct (String_default_holds st) as (r & st' & Hrun & Hnew & Hr & _).
    exists r, st'. repeat split; [done..|]. by apply (size_holds _ _ []).
  - intros Hpos Hfit.
    assert (holds
      (State (<[fresh (dom (heap st)) :=
                  List.concat (replicate (Z.to_nat t) xs)]> (heap st))
             (<[fresh (dom (objs st)) :=
                  mkString (Ptr (fresh (dom (heap st))) 0)
                           (N.of_nat (List.length xs) * Z.to_N t)]> (objs st)))
      (fresh (dom (objs st))) (List.concat (replicate (Z.to_nat t) xs))) as Hr.
    { replace (N.of_nat (List.length xs) * Z.to_N t)
        with (N.of_nat (List.length (List.concat (replicate (Z.to_nat t) xs))))
        by (rewrite length_tiles; lia).
      apply holds_new. rewrite length_tiles. lia. }
    eexists _, _, _. split; [apply repeat_run; [done|lia|done]|].
    split; [apply fresh_addr_None|]. split; [exact Hr|]. split.
    { rewrite (size_holds _ _ _ Hr), length_tiles. do 2 f_equal. lia. }
    split.
    { intros k i x Hk Hx. apply lookup_lt_Some in Hx as Hi.
      by rewrite lookup_tiles. }
    destruct st as [h o].
    by apply holds_frame; [apply fresh_block_None|apply fresh_addr_None|].
Qed.

(** ** Comparison *)

Lemma read_holds {B} (st : @state T) a xs j x (k : T -> M B) :
  holds st a xs -> xs !! j = Some x ->
  (d <- get_data a ;; v <- load_at d (N.of_nat j) ;; k v) st = k x st.
Proof.
  destruct st as [h o]. intros (r & Hr & Hlen & Hmax & Hd) Hx. cbn in Hr, Hd.
  rewrite (bind_Val _ _ _ _ _ (get_data_Some _ _ _ _ Hr)).
  destruct (data r) as [|b off]; [by subst xs|].
  destruct Hd as [-> Hb].
  erewrite bind_Val; [done|].
  eapply load_at_Some; [exact Hb|].
  rewrite N.add_0_l, Nat2N.id. exact Hx.
Qed.

Section CompareProofs.

Variables T_lt T_gt T_ne : T -> T -> bool.

Lemma eq_loop_run (st : @state T) a b xs ys :
  holds st a xs -> holds st b ys ->
  forall fuel j,
    (j + fuel = List.length xs)%nat -> (j + fuel = List.length ys)%nat ->
    eq_loop T_ne fuel (N.of_nat j) a b st
    = Val (eq_elems T_ne (drop j xs) (drop j ys)) st.
Proof.
  intros Ha Hb. induction fuel as [|fuel IH]; intros j Hx Hy.
  - rewrite !drop_ge by lia. done.
  - destruct (lookup_lt_is_Some_2 xs j) as [x Hxj]; [lia|].
    destruct (lookup_lt_is_Some_2 ys j) as [y Hyj]; [lia|].
    rewrite (drop_S _ _ _ Hxj), (drop_S _ _ _ Hyj).
    cbn [eq_loop eq_elems].
    rewrite (read_holds st a xs j x) by done.
    rewrite (read_holds st b ys j y) by done.
    destruct (T_ne x y); [done|].
    rewrite <- Nat2N.inj_succ. apply IH; lia.
Qed.

Lemma op_eq_run (st : @state T) a b xs ys :
  holds st a xs -> holds st b ys ->
  op_eq T_ne a b st = Val (seq_eq T_ne xs ys) st.
Proof.
  intros Ha Hb. unfold op_eq, seq_eq.
  pose proof (size_holds _ _ _ Ha) as Hsa.
  pose proof (size_holds _ _ _ Hb) as Hsb. unfold size in Hsa, Hsb.
  rewrite (bind_Val _ _ _ _ _ Hsa), (bind_Val _ _ _ _ _ Hsb).
  destruct (decide (N.of_nat (List.length xs) <> N.of_nat (List.length ys)))
    as [Hne|Heq].
  - rewrite decide_True by lia. done.
  - rewrite decide_False by lia. rewrite Nat2N.id.
    apply (eq_loop_run st a b xs ys Ha Hb (List.length xs) 0%nat); lia.
Qed.

Lemma lt_loop_run (st : @state T) a b xs ys :
  holds st a xs -> holds st b ys ->
  forall fuel j,
    (j + fuel = List.length xs `min` List.length ys)%nat ->
    bind (lt_loop T_lt T_gt fuel (N.of_nat j) a b)
         (fun r => match r with
                   | Some v => ret v
                   | None => ret (N.of_nat (List.length xs)
                                  <? N.of_nat (List.length ys))
                   end) st
    = Val (seq_lt T_lt T_gt (drop j xs) (drop j ys)) st.
Proof.
  intros Ha Hb. induction fuel as [|fuel IH]; intros j Hj.
  - cbn [lt_loop]. unfold bind, ret.
    destruct (decide (List.length xs <= List.length ys)%nat) as [Hle|Hle].
    + rewrite (drop_ge xs) by lia.
      destruct (drop j ys) as [|y ys'] eqn:E.
      * apply (f_equal List.length) in E. rewrite length_drop in E. cbn in E.
        f_equal. cbn. apply N.ltb_ge. lia.
      * apply (f_equal List.length) in E. rewrite length_drop in E. cbn in E.
        f_equal. cbn. apply N.ltb_lt. lia.
    + rewrite (drop_ge ys) by lia.
      f_equal. rewrite (proj2 (N.ltb_ge _ _)) by lia.
      by destruct (drop j xs).
  - destruct (lookup_lt_is_Some_2 xs j) as [x Hxj]; [lia|].
    destruct (lookup_lt_is_Some_2 ys j) as [y Hyj]; [lia|].
    rewrite (drop_S _ _ _ Hxj), (drop_S _ _ _ Hyj).
    cbn [lt_loop seq_lt]. unfold bind at 1.
    rewrite (read_holds st a xs j x) by done.
    rewrite (read_holds st b ys j y) by done.
    destruct (T_lt x y); [done|]. destruct (T_gt x y); [done|].
    rewrite <- Nat2N.inj_succ.
    specialize (IH (S j)). unfold bind at 1 in IH. apply IH. lia.
Qed.

Lemma op_lt_run (st : @state T) a b xs ys :
  holds st a xs -> holds st b ys ->
  op_lt T_lt T_gt a b st = Val (seq_lt T_lt T_gt xs ys) st.
Proof.
  intros Ha Hb. unfold op_lt.
  pose proof (size_holds _ _ _ Ha) as Hsa.
  pose proof (size_holds _ _ _ Hb) as Hsb. unfold size in Hsa, Hsb.
  rewrite (bind_Val _ _ _ _ _ Hsa), (bind_Val _ _ _ _ _ Hsb).
  replace (N.to_nat (N.min (N.of_nat (List.length xs)) (N.of_nat (List.length ys))))
    with (List.length xs `min` List.length ys)%nat by lia.
  apply (lt_loop_run st a b xs ys Ha Hb _ 0%nat). lia.
Qed.

End CompareProofs.

(** ** Empty sequences, moves and self-assignment *)

(** C2, as the code has it: after default construction, after [clear] and in
    the source of a move the members are [length = 0] and [data = nullptr];
    after fill construction with count 0 and after copying an empty sequence
    [length] is 0 as well, but [data] points to a fresh array of no
    elements, which is not null. *)
Theorem empty_members (st : @state T) :
  (exists this st',
     String_default st = Val this st' /\
     objs st' !! this = Some (mkString Null 0)) /\
  (forall a xs, holds st a xs ->
     exists st', clear a st = Val tt st' /\
                 objs st' !! a = Some (mkString Null 0)) /\
  (forall a xs, holds st a xs ->
     exists this st', String_move a st = Val this st' /\
                      objs st' !! a = Some (mkString Null 0)) /\
  (forall this a zs xs,
     this <> a -> holds st this zs -> holds st a xs ->
     exists st', assign_move this a st = Val this st' /\
                 objs st' !! a = Some (mkString Null 0)) /\
  (forall ch, exists this st' b,
     String_fill 0 ch st = Val this st' /\
     objs st' !! this = Some (mkString (Ptr b 0) 0) /\
     heap st !! b = None /\ heap st' !! b = Some []) /\
  (forall a, holds st a [] ->
     exists this st' b,
       String_copy a st = Val this st' /\
       objs st' !! this = Some (mkString (Ptr b 0) 0) /\
       heap st !! b = None /\ heap st' !! b = Some []).
Proof.
  repeat split.
  - eexists _, _. split; [apply String_default_run|]. apply lookup_insert_eq.
  - intros a xs Hh. destruct (clear_run st a xs Hh) as (r & _ & Hrun).
    eexists. split; [exact Hrun|]. apply lookup_insert_eq.
  - intros a xs (r & Hr & _). eexists _, _.
    split; [by apply String_move_run|]. apply lookup_insert_eq.
  - intros this a zs xs Hne (rt & Ht & Hown) (ro & Ho & _). eexists.
    split; [by eapply assign_move_run|]. apply lookup_insert_eq.
  - intros ch. eexists _, _, _. split; [apply String_fill_run|].
    cbn [heap objs]. split; [apply lookup_insert_eq|].
    split; [apply fresh_block_None|]. apply lookup_insert_eq.
  - intros a Hh. eexists _, _, _. split; [by apply String_copy_run|].
    cbn [heap objs]. split; [apply lookup_insert_eq|].
    split; [apply fresh_block_None|]. apply lookup_insert_eq.
Qed.


(** C10: assigning an object to itself, by copy or by move, changes
    nothing: the object holds the same elements afterwards. *)
Theorem self_assignment (st : @state T) a xs :
  holds st a xs ->
  (exists st', assign_copy a a st = Val a st' /\ st' = st /\ holds st' a xs) /\
  (exists st', assign_move a a st = Val a st' /\ st' = st /\ holds st' a xs).
Proof.
  intros Hh. split; exists st.
  - split; [apply assign_copy_self|done].
  - split; [apply assign_move_self|done].
Qed.

(** ** Equality of sequences *)

Section Equality.

Variable T_ne : T -> T -> bool.

(** The element type's [!=] is the negation of equality. *)
Hypothesis T_ne_eq : forall x y, T_ne x y = false <-> x = y.

Lemma eq_elems_iff xs ys :
  List.length xs = List.length ys -> eq_elems T_ne xs ys = true <-> xs = ys.
Proof.
  revert ys. induction xs as [|x xs IH]; intros [|y ys] Hlen; try done.
  cbn in *. destruct (T_ne x y) eqn:E.
  - split; [done|]. intros [= -> _].
    rewrite (proj2 (T_ne_eq y y)) in E; done.
  - apply T_ne_eq in E as ->. rewrite IH by lia.
    split; [by intros ->|by intros [= ->]].
Qed.

Lemma seq_eq_iff xs ys : seq_eq T_ne xs ys = true <-> xs = ys.
Proof.
  unfold seq_eq. destruct (decide _) as [Hne|Heq].
  - split; [done|]. by intros ->.
  - apply eq_elems_iff. lia.
Qed.

End Equality.

(** ** The laws of concatenation *)

Section ConcatLaws.

(** The element type's [!=]; nothing is assumed about it. *)
Variable T_ne : T -> T -> bool.

(** A sequence compares equal to itself exactly when none of its elements
    differs from itself. *)
Lemma seq_eq_self xs :
  seq_eq T_ne xs xs = true <-> Forall (fun x => T_ne x x = false) xs.
Proof.
  unfold seq_eq. rewrite decide_False by (intros Hn; done).
  induction xs as [|x xs IH]; cbn.
  - split; [constructor|done].
  - destruct (T_ne x x) eqn:E.
    + split; [done|]. intros Hall.
      inversion_clear Hall as [|? ? Hx _]. congruence.
    + rewrite IH. split.
      * intros Hall. by constructor.
      * intros Hall. by inversion_clear Hall.
Qed.

(** C7: [operator+] throws nothing and returns a new sequence of size
    [a.size() + b.size()] made of the elements of [a] followed by those of
    [b], when that sum is a [size_t] value.  When the three sizes add up to
    a [size_t] value, [(a + b) + c == a + (b + c)] is true exactly when no
    element of the three sequences differs from itself under the element
    type's [!=]; [a + String() == a] is true exactly when no element of [a]
    does. *)
Theorem concat_spec (st : @state T) a b c xs ys zs :
  holds st a xs -> holds st b ys -> holds st c zs ->
  (N.of_nat (List.length xs) + N.of_nat (List.length ys) <= SIZE_MAX ->
   exists r st' ws,
     concat a b st = Val r st' /\
     objs st !! r = None /\
     holds st' r ws /\
     size r st' = Val (N.of_nat (List.length xs) + N.of_nat (List.length ys)) st' /\
     (forall i x, xs !! i = Some x -> ws !! i = Some x) /\
     (forall i y, ys !! i = Some y -> ws !! (List.length xs + i)%nat = Some y) /\
     holds st' a xs /\ holds st' b ys) /\
  (N.of_nat (List.length xs) + N.of_nat (List.length ys)
     + N.of_nat (List.length zs) <= SIZE_MAX ->
   exists (e : bool) st',
     (ab <- concat a b ;; l <- concat ab c ;;
      bc <- concat b c ;; r <- concat a bc ;;
      op_eq T_ne l r) st = Val e st' /\
     (e = true <-> Forall (fun x => T_ne x x = false) (xs ++ ys ++ zs))) /\
  (exists (e : bool) st',
     (e <- String_default ;; r <- concat a e ;; op_eq T_ne r a) st
     = Val e st' /\
     (e = true <-> Forall (fun x => T_ne x x = false) xs)).
Proof.
  intros Ha Hb Hc. split; [|split].
  - intros Hfit.
    destruct (concat_holds st a b xs ys Ha Hb Hfit)
      as (r & st' & Hrun & Hnew & Hr & Hframe).
    exists r, st', (xs ++ ys). split; [done|]. split; [done|]. split; [done|].
    split.
    { rewrite (size_holds _ _ _ Hr), length_app. do 2 f_equal. lia. }
    split.
    { intros i x Hx. by apply lookup_app_l_Some. }
    split.
    { intros i y Hy. by rewrite lookup_app_r, Nat.add_comm, Nat.add_sub by lia. }
    split; by apply Hframe.
  - intros Hfit.
    destruct (concat_holds st a b xs ys Ha Hb) as (ab & s1 & R1 & _ & Hab & F1);
      [lia|].
    destruct (concat_holds s1 ab c (xs ++ ys) zs Hab (F1 _ _ Hc))
      as (l & s2 & R2 & _ & Hl & F2); [rewrite length_app; lia|].
    destruct (concat_holds s2 b c ys zs (F2 _ _ (F1 _ _ Hb)) (F2 _ _ (F1 _ _ Hc)))
      as (bc & s3 & R3 & _ & Hbc & F3); [lia|].
    destruct (concat_holds s3 a bc xs (ys ++ zs) (F3 _ _ (F2 _ _ (F1 _ _ Ha))) Hbc)
      as (r & s4 & R4 & _ & Hr & F4); [rewrite length_app; lia|].
    exists (seq_eq T_ne (xs ++ ys ++ zs) (xs ++ ys ++ zs)), s4.
    split; [|apply seq_eq_self].
    rewrite (bind_Val _ _ _ _ _ R1), (bind_Val _ _ _ _ _ R2),
            (bind_Val _ _ _ _ _ R3), (bind_Val _ _ _ _ _ R4).
    rewrite (op_eq_run T_ne s4 l r ((xs ++ ys) ++ zs) (xs ++ ys ++ zs));
      [|by apply F4, F3|done].
    by rewrite <- app_assoc.
  - destruct (String_default_holds st) as (e & s1 & R1 & _ & He & F1).
    pose proof Ha as (ra & _ & Hlen & Hmax & _).
    destruct (concat_holds s1 a e xs [] (F1 _ _ Ha) He)
      as (r & s2 & R2 & _ & Hr & F2); [cbn; lia|].
    exists (seq_eq T_ne xs xs), s2. split; [|apply seq_eq_self].
    rewrite (bind_Val _ _ _ _ _ R1), (bind_Val _ _ _ _ _ R2).
    rewrite (op_eq_run T_ne s2 r a (xs ++ []) xs); [|done|by apply F2, F1].
    by rewrite app_nil_r.
Qed.

End ConcatLaws.

(** ** The order on sequences *)

Section Order.

Variables T_lt T_gt T_ne : T -> T -> bool.

(** The element type is totally ordered by [<]; [>] is [<] with the
    operands swapped and [!=] is the negation of equality. *)
Hypothesis T_gt_lt : forall x y, T_gt x y = T_lt y x.
Hypothesis T_ne_eq : forall x y, T_ne x y = false <-> x = y.
Hypothesis T_lt_irrefl : forall x, T_lt x x = false.
Hypothesis T_lt_trans :
  forall x y z, T_lt x y = true -> T_lt y z = true -> T_lt x z = true.
Hypothesis T_lt_total :
  forall x y, T_lt x y = false -> T_lt y x = false -> x = y.

Lemma seq_lt_trans xs ys zs :
  seq_lt T_lt T_gt xs ys = true -> seq_lt T_lt T_gt ys zs = true ->
  seq_lt T_lt T_gt xs zs = true.
Proof.
  revert ys zs.
  induction xs as [|x xs IH]; intros [|y ys] [|z zs]; try done.
  cbn. rewrite !T_gt_lt.
  destruct (T_lt x y) eqn:Exy, (T_lt y z) eqn:Eyz.
  - by rewrite (T_lt_trans x y z).
  - destruct (T_lt z y) eqn:Ezy; [done|]. intros _ _.
    by rewrite <- (T_lt_total y z), Exy.
  - destruct (T_lt y x) eqn:Eyx; [done|]. intros _ _.
    by rewrite (T_lt_total x y), Eyz.
  - destruct (T_lt y x) eqn:Eyx; [done|].
    destruct (T_lt z y) eqn:Ezy; [done|].
    rewrite <- (T_lt_total y z), (T_lt_total x y) by done.
    rewrite T_lt_irrefl. apply IH.
Qed.

Lemma seq_lt_neither xs ys :
  seq_lt T_lt T_gt xs ys = false /\ seq_lt T_lt T_gt ys xs = false
  <-> xs = ys.
Proof.
  revert ys. induction xs as [|x xs IH]; intros [|y ys]; cbn.
  - done.
  - split; [by intros []|done].
  - split; [by intros []|done].
  - rewrite !T_gt_lt.
    destruct (T_lt x y) eqn:Exy.
    { split; [by intros []|]. intros [= -> _]. by rewrite T_lt_irrefl in Exy. }
    destruct (T_lt y x) eqn:Eyx.
    { split; [by intros []|]. intros [= -> _]. by rewrite T_lt_irrefl in Eyx. }
    rewrite IH. rewrite (T_lt_total x y) by done.
    split; [by intros ->|by intros [= ->]].
Qed.

(** C6: over a totally ordered element type, [operator<] on sequences is
    transitive, [a == b] holds exactly when neither [a < b] nor [b < a], and
    [>], [<=], [>=] are [<] with the operands swapped, the negation of [>]
    and the negation of [<]. *)
Theorem comparison_laws (st : @state T) a b c xs ys zs :
  holds st a xs -> holds st b ys -> holds st c zs ->
  exists lt_ab lt_bc lt_ac lt_ba eq_ab : bool,
    op_lt T_lt T_gt a b st = Val lt_ab st /\
    op_lt T_lt T_gt b c st = Val lt_bc st /\
    op_lt T_lt T_gt a c st = Val lt_ac st /\
    op_lt T_lt T_gt b a st = Val lt_ba st /\
    op_eq T_ne a b st = Val eq_ab st /\
    (lt_ab = true -> lt_bc = true -> lt_ac = true) /\
    (eq_ab = true <-> lt_ab = false /\ lt_ba = false) /\
    op_gt T_lt T_gt a b st = Val lt_ba st /\
    op_le T_lt T_gt a b st = Val (negb lt_ba) st /\
    op_ge T_lt T_gt a b st = Val (negb lt_ab) st.
Proof.
  intros Ha Hb Hc.
  exists (seq_lt T_lt T_gt xs ys), (seq_lt T_lt T_gt ys zs),
         (seq_lt T_lt T_gt xs zs), (seq_lt T_lt T_gt ys xs),
         (seq_eq T_ne xs ys).
  split_and!; try (by apply op_lt_run); try (by apply op_eq_run).
  - apply seq_lt_trans.
  - rewrite seq_eq_iff by done. symmetry. apply seq_lt_neither.
  - unfold op_le, op_gt. by erewrite bind_Val by by apply op_lt_run.
  - unfold op_ge. by erewrite bind_Val by by apply op_lt_run.
Qed.

End Order.

End Proofs.

(** ** The theorems at sample states *)

(** C3 at "abc": index 5 throws, index 1 yields the lvalue of "b". *)
Lemma subscript_spec_witness :
  holds st_abc 1%positive [97; 98; 99] /\
  subscript 1%positive 5 st_abc = Exc (OutOfRangeException 5) st_abc /\
  exists p, subscript 1%positive 1 st_abc = Val p st_abc /\
            load p st_abc = Val 98 st_abc.
Proof.
  assert (holds st_abc 1%positive [97; 98; 99]) as Hh by holds_tac.
  destruct (subscript_spec st_abc 1%positive [97; 98; 99] 5 Hh)
    as (_ & Hout & _).
  destruct (subscript_spec st_abc 1%positive [97; 98; 99] 1 Hh)
    as (_ & _ & Hin).
  split; [exact Hh|]. split; [apply Hout; by vm_compute|].
  destruct Hin as (p & x & Hs & Hl & Hx & _); [by vm_compute|].
  exists p. split; [exact Hs|]. injection Hx as <-. exact Hl.
Defined.

(** C4 at the array of "abc": the pair (2, 1) throws, the pair (1, 3)
    copies two elements. *)
Lemma String_range_spec_witness :
  heap st_abc !! 1%positive = Some [97; 98; 99] /\
  (exists st', String_range (Ptr 1%positive 2) (Ptr 1%positive 1) st_abc
               = Exc InvalidRangeException st') /\
  (exists this st' ys,
     String_range (Ptr 1%positive 1) (Ptr 1%positive 3) st_abc = Val this st' /\
     holds st' this ys /\ N.of_nat (List.length ys) = 2).
Proof.
  assert (heap st_abc !! 1%positive = Some [97; 98; 99]) as Hb by reflexivity.
  assert (N.of_nat (List.length [97; 98; 99]) <= SIZE_MAX) as Hmax
    by (by vm_compute).
  split; [exact Hb|]. split.
  - destruct (String_range_spec st_abc 1%positive [97; 98; 99] 2 1 Hb Hmax)
      as (_ & Hthrow & _); [by vm_compute..|].
    apply Hthrow. by vm_compute.
  - destruct (String_range_spec st_abc 1%positive [97; 98; 99] 1 3 Hb Hmax)
      as (_ & _ & Hcopy & _); [by vm_compute..|].
    destruct Hcopy as (this & st' & ys & Hrun & Hh & Hlen & _); [by vm_compute|].
    exists this, st', ys. done.
Defined.

(** C1 at "abc": [substr(4, 1)] throws, [substr(1, 2)] is "bc" and
    [substr(3, 7)] is empty. *)
Lemma substr_spec_witness :
  holds st_abc 1%positive [97; 98; 99] /\
  substr 1%positive 4 1 st_abc = Exc (OutOfRangeException 4) st_abc /\
  (exists r st' ys,
     substr 1%positive 1 2 st_abc = Val r st' /\ holds st' r ys /\
     ys !! 0%nat = Some 98 /\ ys !! 1%nat = Some 99 /\
     N.of_nat (List.length ys) = 2) /\
  (exists r st', substr 1%positive 3 7 st_abc = Val r st' /\ holds st' r []).
Proof.
  assert (holds st_abc 1%positive [97; 98; 99]) as Hh by holds_tac.
  split; [exact Hh|]. split; [|split].
  - apply (substr_spec st_abc 1%positive [97; 98; 99] 4 1 Hh). by vm_compute.
  - destruct (substr_spec st_abc 1%positive [97; 98; 99] 1 2 Hh) as [_ Hok].
    destruct Hok as (r & st' & ys & rr & fb & Hrun & Hr & _ & Hlen & Hel & _);
      [by vm_compute|].
    change (N.of_nat (List.length ys) = 2) in Hlen.
    exists r, st', ys. split; [exact Hrun|]. split; [exact Hr|].
    split; [rewrite Hel by lia; reflexivity|].
    split; [rewrite Hel by lia; reflexivity|exact Hlen].
  - destruct (substr_spec st_abc 1%positive [97; 98; 99] 3 7 Hh) as [_ Hok].
    destruct Hok
      as (r & st' & ys & rr & fb & Hrun & Hr & _ & _ & _ & _ & Hnil & _);
      [by vm_compute|].
    exists r, st'. split; [exact Hrun|]. rewrite <- Hnil; [exact Hr|reflexivity].
Defined.

(** C2 as stated fails: after fill construction with count 0 and after
    copying a default-constructed sequence the new object has length 0 and a
    data pointer that is not null. *)
Lemma empty_with_allocation :
  (exists this st' r,
     String_fill 0 120 st_empty = Val this st' /\
     objs st' !! this = Some r /\ length r = 0 /\ data r <> Null) /\
  (exists this st' r,
     String_copy 3%positive st_two = Val this st' /\
     holds st_two 3%positive [] /\
     objs st' !! this = Some r /\ length r = 0 /\ data r <> Null).
Proof.
  split.
  - eexists _, _, _. split; [by vm_compute|].
    split; [by vm_compute|]. split; [reflexivity|discriminate].
  - eexists _, _, _. split; [by vm_compute|].
    split; [holds_tac|].
    split; [by vm_compute|]. split; [reflexivity|discriminate].
Defined.



(** C10 at "abc". *)
Lemma self_assignment_witness :
  holds st_abc 1%positive [97; 98; 99] /\
  assign_copy 1%positive 1%positive st_abc = Val 1%positive st_abc /\
  assign_move 1%positive 1%positive st_abc = Val 1%positive st_abc.
Proof.
  assert (holds st_abc 1%positive [97; 98; 99]) as Hh by holds_tac.
  destruct (self_assignment st_abc 1%positive [97; 98; 99] Hh)
    as [(s1 & Hc & -> & _) (s2 & Hm & -> & _)].
  done.
Defined.

(** C8 at "abc" with the upper-casing transformer: the copy starts with
    "A" and the receiver still holds "abc". *)
Lemma transformed_spec_witness :
  holds st_abc 1%positive [97; 98; 99] /\
  exists r st' ys,
    transformed 1%positive (call ToUpperChar) st_abc = Val r st' /\
    holds st' r ys /\ ys !! 0%nat = Some 65 /\
    holds st' 1%positive [97; 98; 99].
Proof.
  assert (holds st_abc 1%positive [97; 98; 99]) as Hh by holds_tac.
  split; [exact Hh|].
  destruct (transformed_spec st_abc 1%positive [97; 98; 99]
              (call ToUpperChar) Hh)
    as (r & st' & ys & Hrun & _ & Hr & _ & Hel & Ha).
  exists r, st', ys. split; [exact Hrun|]. split; [exact Hr|].
  split; [exact (Hel 0%nat 97 eq_refl)|exact Ha].
Defined.

(** C2 at "abc": [clear] leaves a null pointer, fill construction with
    count 0 a pointer to an empty array. *)
Lemma empty_members_witness :
  holds st_abc 1%positive [97; 98; 99] /\
  (exists st', clear 1%positive st_abc = Val tt st' /\
               objs st' !! 1%positive = Some (mkString Null 0)) /\
  (exists this st' b,
     String_fill 0 120 st_abc = Val this st' /\
     objs st' !! this = Some (mkString (Ptr b 0) 0) /\
     heap st' !! b = Some []).
Proof.
  assert (holds st_abc 1%positive [97; 98; 99]) as Hh by holds_tac.
  destruct (empty_members st_abc) as (_ & Hclear & _ & _ & Hfill & _).
  split; [exact Hh|]. split.
  - exact (Hclear 1%positive [97; 98; 99] Hh).
  - destruct (Hfill 120) as (this & st' & b & Hrun & Hobj & _ & Hb).
    exists this, st', b. done.
Defined.

Lemma big_text_length : N.of_nat (List.length big_text) = big_length.
Proof. unfold big_text. rewrite length_replicate. apply N2Nat.id. Qed.

Lemma big_text_held : holds st_big 1%positive big_text.
Proof.
  exists (mkString (Ptr 1%positive 0) big_length).
  split; [apply lookup_singleton_eq|].
  split; [cbn [length]; symmetry; exact big_text_length|].
  split; [by vm_compute|].
  split; [reflexivity|apply lookup_singleton_eq].
Qed.

(** C5 as stated fails: for a text of [2^33 + 5] characters and
    [times = INT_MAX] the product wraps around to [2^31 - 5], and the first
    tile is written past the end of an array of that size. *)
Lemma repeat_wraps :
  holds st_big 1%positive big_text /\
  N.of_nat (List.length big_text) = big_length /\
  (0 < INT_MAX)%Z /\
  size_mul big_length (to_size_t INT_MAX) = 2147483643 /\
  repeat_ 1%positive INT_MAX st_big = Undef.
Proof.
  split; [exact big_text_held|]. split; [exact big_text_length|].
  split; [by vm_compute|]. split; [by vm_compute|].
  apply (repeat_overflow st_big 1%positive big_text INT_MAX big_text_held).
  - by vm_compute.
  - rewrite big_text_length. by vm_compute.
Qed.

(** C5 at "ab": [s * 0] is empty, [s * 3] is "ababab". *)
Lemma repeat_spec_witness :
  holds st_two 1%positive [97; 98] /\
  (exists r st', repeat_ 1%positive 0 st_two = Val r st' /\ holds st' r []) /\
  (exists r st' ys,
     repeat_ 1%positive 3 st_two = Val r st' /\ holds st' r ys /\
     size r st' = Val 6 st' /\
     ys !! 4%nat = Some 97 /\ ys !! 5%nat = Some 98).
Proof.
  assert (holds st_two 1%positive [97; 98]) as Hh by holds_tac.
  split; [exact Hh|]. split.
  - destruct (repeat_spec st_two 1%positive [97; 98] 0 Hh) as (Hle & _).
    { by vm_compute. }
    destruct Hle as (r & st' & Hrun & _ & Hr & _); [done|].
    exists r, st'. done.
  - destruct (repeat_spec st_two 1%positive [97; 98] 3 Hh) as (_ & Hpos & _).
    { by vm_compute. }
    destruct Hpos as (r & st' & ys & Hrun & _ & Hr & Hsize & Hel & _);
      [done|by vm_compute|].
    exists r, st', ys. split; [exact Hrun|]. split; [exact Hr|].
    split; [exact Hsize|]. split.
    + exact (Hel 2%nat 0%nat 97 ltac:(vm_compute; lia) eq_refl).
    + exact (Hel 2%nat 1%nat 98 ltac:(vm_compute; lia) eq_refl).
Defined.

Lemma code_ne_eq x y : code_ne x y = false <-> x = y.
Proof. unfold code_ne. by rewrite negb_false_iff, N.eqb_eq. Qed.

Lemma code_lt_irrefl x : code_lt x x = false.
Proof. apply N.ltb_irrefl. Qed.

Lemma code_lt_trans x y z :
  code_lt x y = true -> code_lt y z = true -> code_lt x z = true.
Proof. unfold code_lt. rewrite !N.ltb_lt. lia. Qed.

Lemma code_lt_total x y :
  code_lt x y = false -> code_lt y x = false -> x = y.
Proof. unfold code_lt. rewrite !N.ltb_ge. lia. Qed.

(** C6 over character codes, at "", "ab" and "cd". *)
Lemma comparison_laws_witness :
  holds st_two 3%positive [] /\
  holds st_two 1%positive [97; 98] /\
  holds st_two 2%positive [99; 100] /\
  op_lt code_lt code_gt 3%positive 1%positive st_two = Val true st_two /\
  op_lt code_lt code_gt 1%positive 2%positive st_two = Val true st_two /\
  op_lt code_lt code_gt 3%positive 2%positive st_two = Val true st_two /\
  op_eq code_ne 3%positive 1%positive st_two = Val false st_two /\
  op_ge code_lt code_gt 3%positive 1%positive st_two = Val false st_two.
Proof.
  assert (holds st_two 3%positive []) as H3 by holds_tac.
  assert (holds st_two 1%positive [97; 98]) as H1 by holds_tac.
  assert (holds st_two 2%positive [99; 100]) as H2 by holds_tac.
  destruct (comparison_laws code_lt code_gt code_ne
              (fun x y => eq_refl) code_ne_eq code_lt_irrefl code_lt_trans
              code_lt_total st_two 3%positive 1%positive 2%positive
              [] [97; 98] [99; 100] H3 H1 H2)
    as (lt_ab & lt_bc & lt_ac & lt_ba & eq_ab
        & Hab & Hbc & Hac & Hba & Heq & Htrans & Hiff & Hgt & Hle & Hge).
  assert (lt_ab = true) as Eab.
  { assert (Val lt_ab st_two = Val true st_two) as E
      by (rewrite <- Hab; by vm_compute).
    by injection E. }
  assert (lt_bc = true) as Ebc.
  { assert (Val lt_bc st_two = Val true st_two) as E
      by (rewrite <- Hbc; by vm_compute).
    by injection E. }
  assert (eq_ab = false) as Eeq.
  { destruct eq_ab; [|done]. destruct Hiff as [Hiff _].
    destruct (Hiff eq_refl) as [E _]. congruence. }
  split_and!; [exact H3|exact H1|exact H2|..].
  - by rewrite Hab, Eab.
  - by rewrite Hbc, Ebc.
  - by rewrite Hac, (Htrans Eab Ebc).
  - by rewrite Heq, Eeq.
  - by rewrite Hge, Eab.
Defined.

(** C7 over character codes, at "ab", "cd" and "". *)
Lemma concat_spec_witness :
  holds st_two 1%positive [97; 98] /\
  holds st_two 2%positive [99; 100] /\
  holds st_two 3%positive [] /\
  (exists r st' ws,
     concat 1%positive 2%positive st_two = Val r st' /\ holds st' r ws /\
     size r st' = Val 4 st' /\
     ws !! 1%nat = Some 98 /\ ws !! 2%nat = Some 99) /\
  (exists st',
     (ab <- concat 1%positive 2%positive ;; l <- concat ab 3%positive ;;
      bc <- concat 2%positive 3%positive ;; r <- concat 1%positive bc ;;
      op_eq code_ne l r) st_two = Val true st') /\
  (exists st',
     (e <- String_default ;; r <- concat 1%positive e ;;
      op_eq code_ne r 1%positive) st_two = Val true st').
Proof.
  assert (holds st_two 1%positive [97; 98]) as H1 by holds_tac.
  assert (holds st_two 2%positive [99; 100]) as H2 by holds_tac.
  assert (holds st_two 3%positive []) as H3 by holds_tac.
  destruct (concat_spec code_ne st_two 1%positive 2%positive
              3%positive [97; 98] [99; 100] [] H1 H2 H3)
    as (Hcat & Hassoc & Hid).
  split; [exact H1|]. split; [exact H2|]. split; [exact H3|]. split; [|split].
  - destruct Hcat as (r & st' & ws & Hrun & _ & Hr & Hsize & Hl & Hrgt & _);
      [by vm_compute|].
    exists r, st', ws. split; [exact Hrun|]. split; [exact Hr|].
    split; [exact Hsize|]. split.
    + exact (Hl 1%nat 98 eq_refl).
    + exact (Hrgt 0%nat 99 eq_refl).
  - destruct Hassoc as (e & st' & Hrun & Hiff); [by vm_compute|].
    assert (e = true) as -> by (apply Hiff; by repeat constructor).
    exists st'. exact Hrun.
  - destruct Hid as (e & st' & Hrun & Hiff).
    assert (e = true) as -> by (apply Hiff; by repeat constructor).
    exists st'. exact Hrun.
Defined.

(** C7 as stated fails for an element type with a value that differs from
    itself: with one such element in [a], both [a + String() == a] and
    [(a + a) + a == a + (a + a)] are false. *)
Lemma concat_laws_fail :
  holds st_nan 1%positive [None] /\
  (exists st',
     (e <- String_default ;; r <- concat 1%positive e ;;
      op_eq nan_ne r 1%positive) st_nan = Val false st') /\
  (exists st',
     (ab <- concat 1%positive 1%positive ;; l <- concat ab 1%positive ;;
      bc <- concat 1%positive 1%positive ;; r <- concat 1%positive bc ;;
      op_eq nan_ne l r) st_nan = Val false st').
Proof.
  split; [holds_tac|]. split; eexists; by vm_compute.
Defined.

(** * The rest of the class *)

Section Coverage.

Context {T : Type} `{!Inhabited T}.

(** ** Frames *)

(** What an object holds does not depend on the other objects. *)
Lemma holds_objs (h : gmap block (list T)) o o' a xs :
  o' !! a = o !! a -> holds (State h o) a xs -> holds (State h o') a xs.
Proof. intros E (r & Hr & Hown). exists r. cbn in *. by rewrite E. Qed.

(** Releasing the array of [rt] leaves every object with another array as
    it was. *)
Lemma holds_released (h : gmap block (list T)) o rt x xs :
  holds (State h o) x xs ->
  (forall rx, o !! x = Some rx ->
     match data rt, data rx with Ptr b1 _, Ptr b2 _ => b1 <> b2 | _, _ => True end) ->
  holds (State (released h rt) o) x xs.
Proof.
  intros (rx & Hx & Hown) Hsep. exists rx. split; [done|]. cbn in *.
  apply owns_released; [done|]. by apply Hsep.
Qed.

Lemma holds_fresh_block (h : gmap block (list T)) o fb ys x xs :
  h !! fb = None -> holds (State h o) x xs ->
  holds (State (<[fb := ys]> h) o) x xs.
Proof.
  intros Hfb (rx & Hx & Hlen & Hmax & Hd). exists rx. split; [done|].
  repeat split; [done..|]. cbn in *.
  destruct (data rx) as [|b off]; [done|]. destruct Hd as [-> Hb].
  split; [done|]. rewrite lookup_insert_ne; [done|]. intros ->. congruence.
Qed.

Lemma holds_inj (st : @state T) a xs ys :
  holds st a xs -> holds st a ys -> xs = ys.
Proof.
  intros (r & Hr & Hlen & _ & Hd) (r' & Hr' & Hlen' & _ & Hd').
  assert (r' = r) as -> by congruence.
  destruct (data r) as [|b off]; [congruence|].
  destruct Hd as [_ Hb], Hd' as [_ Hb']. congruence.
Qed.

(** ** The destructor *)

Lemma destroy_run (st : @state T) a xs :
  holds st a xs ->
  exists r, objs st !! a = Some r /\
    destroy a st
    = Val tt (State (released (heap st) r) (delete a (objs st))).
Proof.
  destruct st as [h o]. intros (r & Hr & Hown). cbn in Hr, Hown.
  exists r. split; [done|]. cbn [heap objs]. unfold destroy.
  rewrite (bind_Val _ _ _ _ _ (get_data_Some _ _ _ _ Hr)).
  rewrite (bind_Val _ _ _ _ _ (delete_array_owned _ _ _ _ Hown)).
  unfold free_obj. cbn. by rewrite Hr.
Qed.

(** ** Fill construction *)

(** X1: [String(count, ch)] builds a new sequence of [count] elements, each of
    them [ch]; objects that exist keep their elements. *)
Theorem fill_spec (st : @state T) count ch :
  count <= SIZE_MAX ->
  exists this st',
    String_fill count ch st = Val this st' /\
    objs st !! this = None /\
    holds st' this (replicate (N.to_nat count) ch) /\
    size this st' = Val count st' /\
    (forall i, i < count -> at_ this i st' = Val ch st') /\
    (forall i, count <= i ->
       at_ this i st' = Exc (OutOfRangeException i) st') /\
    (forall x zs, holds st x zs -> holds st' x zs).
Proof.
  intros Hmax. eexists _, _. split; [apply String_fill_run|].
  split; [apply fresh_addr_None|].
  assert (holds
    (State (<[fresh (dom (heap st)) := replicate (N.to_nat count) ch]> (heap st))
       (<[fresh (dom (objs st)) :=
            mkString (Ptr (fresh (dom (heap st))) 0) count]> (objs st)))
    (fresh (dom (objs st))) (replicate (N.to_nat count) ch)) as Hh.
  { replace count with (N.of_nat (List.length (replicate (N.to_nat count) ch)))
      at 2 by (rewrite length_replicate; lia).
    apply holds_new. rewrite length_replicate. lia. }
  split; [exact Hh|]. split.
  { rewrite (size_holds _ _ _ Hh), length_replicate. f_equal. lia. }
  split.
  { intros i Hi. apply (at_holds _ _ _ _ _ Hh).
    apply lookup_replicate. split; [done|lia]. }
  split.
  { intros i Hi. unfold at_, bind.
    rewrite (subscript_throws _ _ _ _ Hh); [done|].
    rewrite length_replicate. lia. }
  intros x zs Hx. destruct st as [h o].
  by apply holds_frame; [apply fresh_block_None|apply fresh_addr_None|].
Qed.

(** ** Copy construction and copy assignment *)

(** X2: [String(const String&)] is a deep copy: the new object holds the same
    elements in an array of its own, the source keeps its elements, and
    destroying the copy gives back exactly the store from before the
    copy. *)
Theorem copy_spec (st : @state T) a xs :
  holds st a xs ->
  exists this st',
    String_copy a st = Val this st' /\
    objs st !! this = None /\
    holds st' this xs /\ holds st' a xs /\
    separate st' this a /\
    (forall x zs, holds st x zs -> holds st' x zs) /\
    destroy this st' = Val tt st.
Proof.
  intros Ha. pose proof Ha as (r & Hr & Hlen & Hmax & Hd).
  eexists _, _. split; [by apply String_copy_run|].
  split; [apply fresh_addr_None|].
  assert (holds
    (State (<[fresh (dom (heap st)) := xs]> (heap st))
       (<[fresh (dom (objs st)) :=
            mkString (Ptr (fresh (dom (heap st))) 0)
                     (N.of_nat (List.length xs))]> (objs st)))
    (fresh (dom (objs st))) xs) as Hh.
  { apply holds_new. by rewrite <- Hlen. }
  assert (forall x zs, holds st x zs -> holds
    (State (<[fresh (dom (heap st)) := xs]> (heap st))
       (<[fresh (dom (objs st)) :=
            mkString (Ptr (fresh (dom (heap st))) 0)
                     (N.of_nat (List.length xs))]> (objs st))) x zs) as Hframe.
  { intros x zs Hx. destruct st as [h o].
    by apply holds_frame; [apply fresh_block_None|apply fresh_addr_None|]. }
  split; [exact Hh|]. split; [by apply Hframe|]. split.
  { intros ra rb. cbn [objs]. rewrite lookup_insert_eq.
    rewrite lookup_insert_ne by (symmetry; eapply fresh_addr_ne, Hr).
    intros [= <-] Hrb. cbn [data]. assert (rb = r) as -> by congruence.
    destruct (data r) as [|bx offx]; [done|].
    destruct Hd as [_ Hbx]. symmetry. eapply fresh_block_ne, Hbx. }
  split; [exact Hframe|].
  destruct (destroy_run _ _ _ Hh) as (r' & Hr' & ->).
  cbn [objs heap] in Hr' |- *. rewrite lookup_insert_eq in Hr'.
  injection Hr' as <-. unfold released. cbn [data].
  rewrite delete_insert_id by apply fresh_block_None.
  rewrite delete_insert_id by apply fresh_addr_None.
  by destruct st.
Qed.

Lemma assign_copy_run (st : @state T) this other rt ro xs ys :
  this <> other ->
  objs st !! this = Some rt -> owns (heap st) rt xs ->
  objs st !! other = Some ro -> owns (heap st) ro ys ->
  match data rt, data ro with Ptr b1 _, Ptr b2 _ => b1 <> b2 | _, _ => True end ->
  assign_copy this other st
  = Val this
      (State (<[fresh (dom (released (heap st) rt)) := ys]> (released (heap st) rt))
             (<[this := mkString (Ptr (fresh (dom (released (heap st) rt))) 0)
                                 (N.of_nat (List.length ys))]> (objs st))).
Proof.
  destruct st as [h o]. cbn [heap objs]. intros Hne Ht Hownt Ho Howno Hsep.
  unfold assign_copy. rewrite decide_True by done.
  erewrite bind_Val; [done|].
  rewrite (bind_Val _ _ _ _ _ (get_data_Some _ _ _ _ Ht)).
  rewrite (bind_Val _ _ _ _ _ (delete_array_owned _ _ _ _ Hownt)).
  rewrite (bind_Val _ _ _ _ _ (get_data_Some _ _ _ _ Ho)).
  rewrite (bind_Val _ _ _ _ _ (get_length_Some _ _ _ _ Ho)).
  pose proof (owns_released h rt ro ys Howno Hsep) as Hown'.
  rewrite (copy_from_spec this (data ro) (length ro) rt ys); cbn [heap objs];
    [|done|by apply owns_reads].
  destruct Howno as [-> _]. done.
Qed.

(** X3: [operator=(const String&)] between two objects: the target releases its
    array and holds a copy of the source's elements in a new array of its
    own; the source and every other object keep their elements. *)
Theorem copy_assign_spec (st : @state T) this other xs ys :
  this <> other ->
  holds st this xs -> holds st other ys ->
  (forall x, x <> this -> separate st this x) ->
  exists st',
    assign_copy this other st = Val this st' /\
    holds st' this ys /\ holds st' other ys /\
    separate st' this other /\
    (forall x zs, x <> this -> holds st x zs -> holds st' x zs).
Proof.
  intros Hne (rt & Ht & Hownt) (ro & Ho & Howno) Hsep.
  assert (forall x rx, x <> this -> objs st !! x = Some rx ->
    match data rt, data rx with Ptr b1 _, Ptr b2 _ => b1 <> b2 | _, _ => True end)
    as Hsep'.
  { intros x rx Hx Hrx. by apply (Hsep x Hx). }
  eexists. split.
  { eapply assign_copy_run; [done..|]. by apply (Hsep' other). }
  set (h1 := released (heap st) rt).
  assert (forall x zs, x <> this -> holds st x zs -> holds
    (State (<[fresh (dom h1) := ys]> h1)
       (<[this := mkString (Ptr (fresh (dom h1)) 0)
                           (N.of_nat (List.length ys))]> (objs st))) x zs)
    as Hframe.
  { intros x zs Hx Hh. destruct st as [h o]. cbn [heap objs] in *.
    apply (holds_objs _ o); [by rewrite lookup_insert_ne|].
    apply holds_fresh_block; [apply fresh_block_None|].
    apply holds_released; [done|]. intros rx Hrx. by apply (Hsep' x). }
  assert (holds
    (State (<[fresh (dom h1) := ys]> h1)
       (<[this := mkString (Ptr (fresh (dom h1)) 0)
                           (N.of_nat (List.length ys))]> (objs st))) this ys)
    as Hthis.
  { apply holds_new. destruct Howno as (<- & Hmax & _). done. }
  split; [exact Hthis|]. split.
  { apply Hframe; [done|]. by exists ro. }
  split; [|exact Hframe].
  intros ra rb. cbn [objs]. rewrite lookup_insert_eq, lookup_insert_ne by done.
  intros [= <-] Hrb. cbn [data]. assert (rb = ro) as -> by congruence.
  pose proof (owns_released (heap st) rt ro ys Howno (Hsep' other ro ltac:(done) Ho))
    as (_ & _ & Hd).
  destruct (data ro) as [|bx offx]; [done|].
  destruct Hd as [_ Hbx]. symmetry. eapply fresh_block_ne, Hbx.
Qed.

(** ** Appending one element *)

Lemma owns_fresh_block (h : gmap block (list T)) fb ys r xs :
  h !! fb = None -> owns h r xs -> owns (<[fb := ys]> h) r xs.
Proof.
  intros Hfb (Hlen & Hmax & Hd). repeat split; [done..|].
  destruct (data r) as [|b off]; [done|]. destruct Hd as [-> Hb].
  split; [done|]. rewrite lookup_insert_ne; [done|]. intros ->. congruence.
Qed.

Lemma append_run (st : @state T) a r xs ch :
  objs st !! a = Some r -> owns (heap st) r xs ->
  N.of_nat (List.length xs) + 1 <= SIZE_MAX ->
  append a ch st
  = Val a
      (State (released (<[fresh (dom (heap st)) := xs ++ [ch]]> (heap st)) r)
             (<[a := mkString (Ptr (fresh (dom (heap st))) 0)
                              (N.of_nat (List.length xs) + 1)]> (objs st))).
Proof.
  destruct st as [h o]. cbn [heap objs]. intros Hr Hown Hfit.
  pose proof Hown as (Hlen & Hmax & Hd).
  set (fb := fresh (dom h)).
  unfold append.
  rewrite (bind_Val _ _ _ _ _ (get_length_Some _ _ _ _ Hr)).
  rewrite Hlen, size_add_small by done.
  erewrite bind_Val; [|reflexivity]. cbn [heap objs]. fold fb.
  replace (N.to_nat (N.of_nat (List.length xs) + 1))
    with (List.length xs + 1)%nat by lia.
  rewrite replicate_add. cbn [replicate].
  erewrite bind_Val; cycle 1.
  { apply (fill_loop h o fb [] xs [inhabitant]); [done|].
    intros j v arr Hv.
    erewrite (read_elem h o fb arr a r xs j v);
      [|done|done|apply fresh_block_None|done].
    apply store_at_base. }
  cbn [app].
  erewrite bind_Val; cycle 1.
  { rewrite store_at_base. apply store_Some; [apply lookup_insert_eq|].
    rewrite length_app. cbn. lia. }
  rewrite insert_insert_eq.
  replace (<[N.to_nat (N.of_nat (List.length xs)):=ch]> (xs ++ [inhabitant]))
    with (xs ++ [ch]).
  2:{ rewrite Nat2N.id.
      replace (List.length xs) with (List.length xs + 0)%nat at 1 by lia.
      by rewrite insert_app_r. }
  rewrite (bind_Val _ _ _ _ _ (get_data_Some _ _ _ _ Hr)).
  erewrite bind_Val; cycle 1.
  { eapply delete_array_owned, owns_fresh_block;
      [apply fresh_block_None|exact Hown]. }
  rewrite (bind_Val _ _ _ _ _ (set_data_Some _ _ _ _ _ Hr)).
  erewrite bind_Val; [|by apply set_length_Some, lookup_insert_eq].
  rewrite insert_insert_eq. done.
Qed.

(** X4: [operator+=]: the object grows by one element, [ch], behind the
    elements it held, which it keeps in order; its old array is released
    and every other object keeps its elements. *)
Theorem append_spec (st : @state T) a xs ch :
  holds st a xs ->
  N.of_nat (List.length xs) + 1 <= SIZE_MAX ->
  (forall x, x <> a -> separate st a x) ->
  exists st',
    append a ch st = Val a st' /\
    holds st' a (xs ++ [ch]) /\
    size a st' = Val (N.of_nat (List.length xs) + 1) st' /\
    at_ a (N.of_nat (List.length xs)) st' = Val ch st' /\
    (forall i x, xs !! i = Some x -> at_ a (N.of_nat i) st' = Val x st') /\
    (forall b, (exists r, objs st !! a = Some r /\ data r = Ptr b 0) ->
               heap st' !! b = None) /\
    (forall x zs, x <> a -> holds st x zs -> holds st' x zs).
Proof.
  intros (r & Hr & Hown) Hfit Hsep.
  pose proof Hown as (Hlen & Hmax & Hd).
  eexists. split; [by eapply append_run|].
  set (fb := fresh (dom (heap st))).
  assert (released (<[fb := xs ++ [ch]]> (heap st)) r !! fb = Some (xs ++ [ch]))
    as Hfb.
  { unfold released. destruct (data r) as [|b off]; [apply lookup_insert_eq|].
    destruct Hd as [_ Hb]. rewrite lookup_delete_ne; [apply lookup_insert_eq|].
    eapply fresh_block_ne, Hb. }
  assert (holds
    (State (released (<[fb := xs ++ [ch]]> (heap st)) r)
       (<[a := mkString (Ptr fb 0) (N.of_nat (List.length xs) + 1)]> (objs st)))
    a (xs ++ [ch])) as Hh.
  { eexists. split; [apply lookup_insert_eq|].
    repeat split; cbn; [rewrite length_app; cbn; lia|done|done]. }
  split; [exact Hh|]. split.
  { rewrite (size_holds _ _ _ Hh), length_app. cbn. f_equal. lia. }
  split.
  { apply (at_holds _ _ _ _ _ Hh). rewrite Nat2N.id.
    rewrite lookup_app_r, Nat.sub_diag by lia. done. }
  split.
  { intros i x Hx. apply (at_holds _ _ _ _ _ Hh). rewrite Nat2N.id.
    by apply lookup_app_l_Some. }
  split.
  { intros b (r' & Hr' & Hb). assert (r' = r) as -> by congruence.
    cbn [heap]. unfold released. rewrite Hb. apply lookup_delete_eq. }
  intros x zs Hx Hxh. destruct st as [h o]. cbn [heap objs] in *.
  apply (holds_objs _ o); [by rewrite lookup_insert_ne|].
  apply holds_released.
  - apply holds_fresh_block; [apply fresh_block_None|done].
  - intros rx Hrx. by apply (Hsep x Hx r rx).
Qed.

(** ** Transformation in place *)

Lemma modify_step (f : T -> T) (xs : list T) j x :
  xs !! j = Some x ->
  <[j := f x]> ((f <$> take j xs) ++ drop j xs)
  = (f <$> take (S j) xs) ++ drop (S j) xs.
Proof.
  intros Hx. apply lookup_lt_Some in Hx as Hlt.
  replace j with (List.length (f <$> take j xs) + 0)%nat at 1
    by (rewrite length_fmap, length_take; lia).
  rewrite insert_app_r, (drop_S _ _ _ Hx). cbn.
  rewrite (take_S_r _ _ _ Hx), fmap_app, <- app_assoc. done.
Qed.

Lemma modify_run (st : @state T) a r xs (f : T -> T) :
  objs st !! a = Some r -> owns (heap st) r xs ->
  modify a f st
  = Val tt (State (match data r with
                   | Null => heap st
                   | Ptr b _ => <[b := f <$> xs]> (heap st)
                   end) (objs st)).
Proof.
  destruct st as [h o]. cbn [heap objs]. intros Hr (Hlen & Hmax & Hd).
  unfold modify.
  rewrite (bind_Val _ _ _ _ _ (get_length_Some _ _ _ _ Hr)).
  destruct (data r) as [|b off] eqn:Hdata.
  { subst xs. rewrite Hlen. done. }
  destruct Hd as [-> Hb].
  pose (I := fun (j : nat) (s : @state T) =>
    s = State (<[b := (f <$> take j xs) ++ drop j xs]> h) o).
  edestruct (for_upto_inv I) as (st' & -> & HI).
  - unfold I. cbn. by rewrite insert_id.
  - intros j s Hj ->. rewrite Hlen, Nat2N.id in Hj.
    destruct (lookup_lt_is_Some_2 xs j Hj) as [x Hx].
    eexists. split; [|reflexivity].
    rewrite (bind_Val _ _ _ _ _ (get_data_Some _ _ _ _ Hr)), Hdata.
    erewrite bind_Val; cycle 1.
    { eapply load_at_Some; [apply lookup_insert_eq|].
      rewrite N.add_0_l, Nat2N.id, lookup_app_r
        by (rewrite length_fmap, length_take; lia).
      rewrite length_fmap, length_take, lookup_drop.
      rewrite <- Hx. f_equal. lia. }
    rewrite store_at_base.
    erewrite store_Some; [|apply lookup_insert_eq|].
    + by rewrite insert_insert_eq, Nat2N.id, modify_step.
    + rewrite length_app, length_fmap, length_take, length_drop. lia.
  - unfold I in HI. subst st'.
    rewrite Hlen, Nat2N.id, take_ge, drop_ge, app_nil_r by lia. done.
Qed.

Lemma modify_holds (st : @state T) a r xs (f : T -> T) :
  objs st !! a = Some r -> owns (heap st) r xs ->
  holds (State (match data r with
                | Null => heap st
                | Ptr b _ => <[b := f <$> xs]> (heap st)
                end) (objs st)) a (f <$> xs).
Proof.
  intros Hr (Hlen & Hmax & Hd). exists r. split; [done|].
  split; [by rewrite length_fmap|]. split; [done|]. cbn [heap].
  destruct (data r) as [|b off]; [by subst xs|].
  destruct Hd as [-> _]. split; [done|apply lookup_insert_eq].
Qed.

(** X5: [apply] and [modify] replace every element [e] by [f(e)] in place: the
    object keeps its array and its length, and every object with another
    array keeps its elements. *)
Theorem modify_spec (st : @state T) a xs (f : T -> T) :
  holds st a xs ->
  exists st',
    modify a f st = Val tt st' /\
    apply a {| call := f |} st = Val tt st' /\
    holds st' a (f <$> xs) /\
    objs st' = objs st /\
    size a st' = Val (N.of_nat (List.length xs)) st' /\
    (forall i x, xs !! i = Some x -> at_ a (N.of_nat i) st' = Val (f x) st') /\
    (forall x zs, separate st a x -> x <> a -> holds st x zs -> holds st' x zs).
Proof.
  intros (r & Hr & Hown). pose proof Hown as (Hlen & Hmax & Hd).
  eexists. split; [by eapply modify_run|]. split; [by eapply modify_run|].
  assert (holds
    (State (match data r with
            | Null => heap st
            | Ptr b _ => <[b := f <$> xs]> (heap st)
            end) (objs st)) a (f <$> xs)) as Hh.
  { exists r. split; [done|]. repeat split; cbn [heap];
      [by rewrite length_fmap|done|].
    destruct (data r) as [|b off]; [by subst xs|].
    destruct Hd as [-> _]. split; [done|apply lookup_insert_eq]. }
  split; [exact Hh|]. split; [done|]. split.
  { by rewrite (size_holds _ _ _ Hh), length_fmap. }
  split.
  { intros i x Hx. apply (at_holds _ _ _ _ _ Hh).
    by rewrite Nat2N.id, list_lookup_fmap, Hx. }
  intros x zs Hsep Hne (rx & Hrx & Hlenx & Hmaxx & Hdx).
  exists rx. split; [done|]. repeat split; [done..|]. cbn [heap].
  specialize (Hsep r rx Hr Hrx).
  destruct (data rx) as [|bx offx]; [done|]. destruct Hdx as [-> Hbx].
  split; [done|]. destruct (data r) as [|b off]; [done|].
  by rewrite lookup_insert_ne.
Qed.

(** ** [clear], [empty] and the end of a moved-from object *)

(** X6: [clear] releases the array and leaves the empty sequence; a second
    [clear] changes nothing; every other object keeps its elements. *)
Theorem clear_spec (st : @state T) a xs :
  holds st a xs ->
  (forall x, x <> a -> separate st a x) ->
  exists st',
    clear a st = Val tt st' /\
    holds st' a [] /\
    empty a st' = Val true st' /\
    size a st' = Val 0 st' /\
    (forall b, (exists r, objs st !! a = Some r /\ data r = Ptr b 0) ->
               heap st' !! b = None) /\
    clear a st' = Val tt st' /\
    (forall x zs, x <> a -> holds st x zs -> holds st' x zs).
Proof.
  intros Ha Hsep. destruct (clear_run st a xs Ha) as (r & Hr & Hrun).
  eexists. split; [exact Hrun|].
  assert (holds (State (released (heap st) r) (<[a := String_init]> (objs st)))
                a []) as Hh by apply holds_init, lookup_insert_eq.
  split; [exact Hh|]. split.
  { unfold empty. pose proof (size_holds _ _ _ Hh) as Hs. unfold size in Hs.
    by rewrite (bind_Val _ _ _ _ _ Hs). }
  split; [by apply (size_holds _ _ [])|]. split.
  { intros b (r' & Hr' & Hb). assert (r' = r) as -> by congruence.
    cbn [heap]. unfold released. rewrite Hb. apply lookup_delete_eq. }
  split.
  { destruct (clear_run _ a [] Hh) as (r' & Hr' & ->).
    cbn [objs heap] in Hr' |- *. rewrite lookup_insert_eq in Hr'.
    injection Hr' as <-. by rewrite insert_insert_eq. }
  intros x zs Hx Hxh. destruct st as [h o]. cbn [heap objs] in *.
  apply (holds_objs _ o); [by rewrite lookup_insert_ne|].
  apply holds_released; [done|]. intros rx Hrx. by apply (Hsep x Hx r rx).
Qed.

(** X7: [empty()] answers whether the sequence has no elements, and [size()]
    is their number. *)
Theorem empty_spec (st : @state T) a xs :
  holds st a xs ->
  empty a st = Val (bool_decide (xs = [])) st /\
  size a st = Val (N.of_nat (List.length xs)) st.
Proof.
  intros Ha. pose proof (size_holds _ _ _ Ha) as Hs. split; [|done].
  unfold empty. unfold size in Hs. rewrite (bind_Val _ _ _ _ _ Hs).
  unfold ret. f_equal. destruct xs; [done|].
  rewrite bool_decide_eq_false_2 by done. apply N.eqb_neq. cbn. lia.
Qed.

(** X8: After [String(String&&)] the array has one owner: destroying the source
    and then the new object frees it once, and ends in the state that
    destroying the source alone, without the move, would have reached. *)
Theorem move_then_destroy (st : @state T) a xs :
  holds st a xs ->
  exists this st1 st2,
    String_move a st = Val this st1 /\
    (destroy a ;;; destroy this) st1 = Val tt st2 /\
    destroy a st = Val tt st2.
Proof.
  intros Ha. pose proof Ha as (r & Hr & Hown).
  destruct (destroy_run st a xs Ha) as (r' & Hr' & Hd).
  assert (r' = r) as -> by congruence.
  set (this := fresh (dom (objs st))).
  assert (a <> this) as Hne by (eapply fresh_addr_ne, Hr).
  eexists this, _, _. split; [by apply String_move_run|].
  split; [|exact Hd].
  fold this.
  assert (holds (State (heap st) (<[a := String_init]> (<[this := r]> (objs st))))
                a []) as H1 by apply holds_init, lookup_insert_eq.
  destruct (destroy_run _ _ _ H1) as (r1 & Hr1 & D1).
  cbn [objs heap] in Hr1, D1. rewrite lookup_insert_eq in Hr1.
  injection Hr1 as <-. rewrite (bind_Val _ _ _ _ _ D1).
  rewrite delete_insert_eq, delete_insert_ne by done.
  assert (holds (State (released (heap st) String_init)
                       (<[this := r]> (delete a (objs st)))) this xs) as H2.
  { exists r. split; [apply lookup_insert_eq|done]. }
  destruct (destroy_run _ _ _ H2) as (r2 & Hr2 & ->).
  cbn [objs heap] in Hr2 |- *. rewrite lookup_insert_eq in Hr2.
  injection Hr2 as <-.
  rewrite delete_insert_id; [done|].
  rewrite lookup_delete_ne by done. apply fresh_addr_None.
Qed.

(** ** Adding one element at either end, by value *)

Lemma delete_insert_fresh `{Countable K} {A} (m : gmap K A) i j x y :
  i <> j -> m !! i = None ->
  delete i (<[j := y]> (<[i := x]> m)) = <[j := y]> m.
Proof. intros Hne Hi. by rewrite delete_insert_ne, delete_insert_id. Qed.

(** X9: [s + ch] is a new sequence, the elements of [s] followed by [ch]; [s]
    keeps its elements, and the call leaves behind one new object and one
    new array, nothing else. *)
Theorem append_element_spec (st : @state T) a xs ch :
  holds st a xs ->
  N.of_nat (List.length xs) + 1 <= SIZE_MAX ->
  exists r st' fb,
    append_element a ch st = Val r st' /\
    objs st !! r = None /\ heap st !! fb = None /\
    heap st' = <[fb := xs ++ [ch]]> (heap st) /\
    objs st' = <[r := mkString (Ptr fb 0) (N.of_nat (List.length xs) + 1)]>
                 (objs st) /\
    holds st' r (xs ++ [ch]) /\
    holds st' a xs /\
    (forall x zs, holds st x zs -> holds st' x zs).
Proof.
  intros Ha Hfit. pose proof Ha as (ra & Hra & Hlen & Hmax & Hd).
  destruct st as [h o]. cbn [heap objs] in *.
  set (res := fresh (dom o)). set (fb := fresh (dom h)).
  set (fb2 := fresh (dom (<[fb := xs]> h))).
  assert (fb <> fb2) as Hne.
  { eapply fresh_block_ne. apply lookup_insert_eq. }
  assert (h !! fb2 = None) as Hfb2.
  { pose proof (fresh_block_None (<[fb := xs]> h)) as Hn. fold fb2 in Hn.
    by rewrite lookup_insert_ne in Hn. }
  exists res, (State (<[fb2 := xs ++ [ch]]> h)
                 (<[res := mkString (Ptr fb2 0) (N.of_nat (List.length xs) + 1)]> o)),
         fb2.
  split.
  { unfold append_element.
    rewrite (bind_Val _ _ _ _ _ (String_copy_run _ _ _ Ha)). cbn [heap objs].
    fold res fb.
    erewrite bind_Val; [done|].
    erewrite append_run; cbn [heap objs];
      [|apply lookup_insert_eq|
       |done].
    2:{ split; [done|]. split; [cbn; lia|]. cbn.
        split; [done|apply lookup_insert_eq]. }
    fold fb2. unfold released. cbn [data].
    rewrite delete_insert_fresh by (done || apply fresh_block_None).
    by rewrite insert_insert_eq. }
  split; [apply fresh_addr_None|]. split; [done|]. split; [done|].
  split; [done|].
  assert (forall x zs, holds (State h o) x zs -> holds
    (State (<[fb2 := xs ++ [ch]]> h)
       (<[res := mkString (Ptr fb2 0) (N.of_nat (List.length xs) + 1)]> o))
    x zs) as Hframe.
  { intros x zs Hx. by apply holds_frame; [|apply fresh_addr_None|]. }
  split; [|split; [by apply Hframe|exact Hframe]].
  eexists. split; [apply lookup_insert_eq|].
  repeat split; cbn; [rewrite length_app; cbn; lia|done|apply lookup_insert_eq].
Qed.

(** X10: [ch + s] is a new sequence, [ch] followed by the elements of [s]; the
    one-element local of the function is destroyed, so the call leaves
    behind one new object and one new array, nothing else. *)
Theorem prepend_element_spec (st : @state T) a xs ch :
  holds st a xs ->
  N.of_nat (List.length xs) + 1 <= SIZE_MAX ->
  exists r st' fb,
    prepend_element ch a st = Val r st' /\
    objs st !! r = None /\ heap st !! fb = None /\
    heap st' = <[fb := ch :: xs]> (heap st) /\
    objs st' = <[r := mkString (Ptr fb 0) (N.of_nat (List.length xs) + 1)]>
                 (objs st) /\
    holds st' r (ch :: xs) /\
    holds st' a xs /\
    (forall x zs, holds st x zs -> holds st' x zs).
Proof.
  intros Ha Hfit. pose proof Ha as (ra & Hra & Hlen & Hmax & Hd).
  destruct st as [h o]. cbn [heap objs] in *.
  set (loc := fresh (dom o)). set (fb := fresh (dom h)).
  set (o1 := <[loc := mkString (Ptr fb 0) 1]> o).
  set (h1 := <[fb := [ch]]> h).
  set (res := fresh (dom o1)). set (fb2 := fresh (dom h1)).
  assert (fb <> fb2) as Hne.
  { eapply fresh_block_ne. apply lookup_insert_eq. }
  assert (loc <> res) as Hne'.
  { eapply fresh_addr_ne. apply lookup_insert_eq. }
  assert (h !! fb2 = None) as Hfb2.
  { pose proof (fresh_block_None h1) as Hn. fold fb2 in Hn.
    unfold h1 in Hn. by rewrite lookup_insert_ne in Hn. }
  assert (o !! res = None) as Hres.
  { pose proof (fresh_addr_None o1) as Hn. fold res in Hn.
    unfold o1 in Hn. by rewrite lookup_insert_ne in Hn. }
  assert (holds (State h1 o1) loc [ch]) as Hloc.
  { apply (holds_new h o loc fb [ch]). cbn. unfold SIZE_MAX, size_t_modulus. lia. }
  assert (holds (State h1 o1) a xs) as Ha1.
  { by apply holds_frame; [apply fresh_block_None|apply fresh_addr_None|]. }
  exists res, (State (<[fb2 := ch :: xs]> h)
                 (<[res := mkString (Ptr fb2 0) (N.of_nat (List.length xs) + 1)]> o)),
         fb2.
  split.
  { unfold prepend_element.
    rewrite (bind_Val _ _ _ _ _ (String_fill_run _ _ _)). cbn [heap objs].
    fold loc fb. change (replicate (N.to_nat 1) ch) with [ch].
    fold h1 o1.
    erewrite bind_Val; [|apply (concat_run _ loc a [ch] xs Hloc Ha1); cbn; lia].
    cbn [heap objs]. fold res fb2.
    assert (holds
      (State (<[fb2 := [ch] ++ xs]> h1)
         (<[res := mkString (Ptr fb2 0) (N.of_nat (List.length ([ch] ++ xs)))]> o1))
      loc [ch]) as Hloc2.
    { by apply holds_frame; [apply fresh_block_None|apply fresh_addr_None|]. }
    destruct (destroy_run _ _ _ Hloc2) as (rl & Hrl & D).
    cbn [heap objs] in Hrl, D.
    rewrite lookup_insert_ne in Hrl by done.
    unfold o1 in Hrl. rewrite lookup_insert_eq in Hrl.
    injection Hrl as <-.
    rewrite (bind_Val _ _ _ _ _ D). unfold ret, released. cbn [data].
    unfold h1, o1.
    rewrite !delete_insert_fresh by (done || apply fresh_block_None
                                     || apply fresh_addr_None).
    do 4 f_equal. cbn. lia. }
  split; [done|]. split; [done|]. split; [done|]. split; [done|].
  assert (forall x zs, holds (State h o) x zs -> holds
    (State (<[fb2 := ch :: xs]> h)
       (<[res := mkString (Ptr fb2 0) (N.of_nat (List.length xs) + 1)]> o))
    x zs) as Hframe.
  { intros x zs Hx. by apply holds_frame. }
  split; [|split; [by apply Hframe|exact Hframe]].
  eexists. split; [apply lookup_insert_eq|].
  repeat split; cbn; [lia|done|apply lookup_insert_eq].
Qed.

(** ** Writing to a stream *)

Lemma write_loop_run (st : @state T) a xs :
  holds st a xs ->
  forall fuel j os,
    (j + fuel = List.length xs)%nat ->
    write_loop fuel (N.of_nat j) a os st = Val (os ++ drop j xs) st.
Proof.
  intros Ha. induction fuel as [|fuel IH]; intros j os Hj.
  - rewrite drop_ge, app_nil_r by lia. done.
  - destruct (lookup_lt_is_Some_2 xs j) as [x Hx]; [lia|].
    cbn [write_loop].
    erewrite bind_Val; [|by apply (at_holds st a xs); rewrite ?Nat2N.id].
    rewrite <- Nat2N.inj_succ, IH by lia.
    by rewrite (drop_S _ _ _ Hx), <- app_assoc.
Qed.

(** X11: [os << str] writes the elements of [str] in index order and nothing
    else, after what the stream already holds; it throws nothing and leaves
    the store as it is. *)
Theorem op_write_spec (st : @state T) a xs os :
  holds st a xs -> op_write os a st = Val (os ++ xs) st.
Proof.
  intros Ha. unfold op_write.
  rewrite (bind_Val _ _ _ _ _ (size_holds _ _ _ Ha)), Nat2N.id.
  apply (write_loop_run st a xs Ha _ 0%nat). lia.
Qed.

(** ** Results in frame form *)

Lemma substr_holds (st : @state T) a xs start len :
  holds st a xs -> start <= N.of_nat (List.length xs) ->
  exists r st',
    substr a start len st = Val r st' /\
    holds st' r (take (N.to_nat len) (drop (N.to_nat start) xs)) /\
    (forall x zs, holds st x zs -> holds st' x zs).
Proof.
  intros Ha Hle. pose proof Ha as (ra & _ & Hlen & Hmax & _).
  pose proof (substr_copies st a xs start len Ha Hle) as Hrun.
  cbn zeta in Hrun.
  assert (take (N.to_nat (N.min len (N.of_nat (List.length xs) - start)))
            (drop (N.to_nat start) xs)
          = take (N.to_nat len) (drop (N.to_nat start) xs)) as E.
  { destruct (decide (len <= N.of_nat (List.length xs) - start)).
    - by rewrite N.min_l.
    - rewrite N.min_r by lia.
      rewrite !take_ge; [done|rewrite length_drop; lia..]. }
  rewrite E in Hrun. eexists _, _. split; [exact Hrun|]. split.
  - apply holds_new. rewrite length_take, length_drop. lia.
  - intros x zs Hx. destruct st as [h o].
    by apply holds_frame; [apply fresh_block_None|apply fresh_addr_None|].
Qed.

Lemma repeat_holds (st : @state T) a xs t :
  holds st a xs -> (t <= INT_MAX)%Z ->
  N.of_nat (List.length xs) * Z.to_N t <= SIZE_MAX ->
  exists r st',
    repeat_ a t st = Val r st' /\
    holds st' r (List.concat (replicate (Z.to_nat t) xs)) /\
    (forall x zs, holds st x zs -> holds st' x zs).
Proof.
  intros Ha Ht Hfit. destruct (decide (t <= 0)%Z) as [Hle|Hpos].
  - unfold repeat_. rewrite decide_True by done.
    destruct (String_default_holds st) as (r & st' & Hrun & _ & Hr & Hframe).
    exists r, st'. replace (Z.to_nat t) with 0%nat by lia. done.
  - eexists _, _. split; [apply repeat_run; [done|lia|done]|]. split.
    + replace (N.of_nat (List.length xs) * Z.to_N t)
        with (N.of_nat (List.length (List.concat (replicate (Z.to_nat t) xs))))
        by (rewrite length_tiles; lia).
      apply holds_new. rewrite length_tiles. lia.
    + intros x zs Hx. destruct st as [h o].
      by apply holds_frame; [apply fresh_block_None|apply fresh_addr_None|].
Qed.

(** ** Equality, and how the operations compose under it *)

Section EqualityMore.

Variable T_ne : T -> T -> bool.
Hypothesis T_ne_eq : forall x y, T_ne x y = false <-> x = y.

(** X12: [a == b] holds exactly when the two sequences have the same elements
    in the same order; it is reflexive and symmetric, and [a != b] is its
    negation. *)
Theorem equality_spec (st : @state T) a b xs ys :
  holds st a xs -> holds st b ys ->
  exists e : bool,
    op_eq T_ne a b st = Val e st /\
    (e = true <-> xs = ys) /\
    op_ne T_ne a b st = Val (negb e) st /\
    op_eq T_ne b a st = Val e st /\
    op_eq T_ne a a st = Val true st.
Proof.
  intros Ha Hb. exists (seq_eq T_ne xs ys).
  split; [by apply op_eq_run|]. split; [by apply seq_eq_iff|]. split.
  { unfold op_ne. by rewrite (bind_Val _ _ _ _ _ (op_eq_run T_ne _ _ _ _ _ Ha Hb)). }
  split.
  - rewrite (op_eq_run T_ne _ _ _ _ _ Hb Ha). f_equal.
    pose proof (seq_eq_iff T_ne T_ne_eq xs ys) as [I1 I1'].
    pose proof (seq_eq_iff T_ne T_ne_eq ys xs) as [I2 I2'].
    destruct (seq_eq T_ne xs ys), (seq_eq T_ne ys xs); try done.
    + apply I2'. symmetry. by apply I1.
    + symmetry. apply I1'. symmetry. by apply I2.
  - rewrite (op_eq_run T_ne _ _ _ _ _ Ha Ha). f_equal. by apply seq_eq_iff.
Qed.

(** X13: Cutting a sequence at any position [k] and concatenating the two
    slices gives a sequence equal to the original. *)
Theorem split_join (st : @state T) a xs k :
  holds st a xs -> k <= N.of_nat (List.length xs) ->
  exists st',
    (l <- substr a 0 k ;;
     r <- substr a k (N.of_nat (List.length xs) - k) ;;
     c <- concat l r ;;
     op_eq T_ne c a) st = Val true st'.
Proof.
  intros Ha Hk. pose proof Ha as (ra & _ & Hlen & Hmax & _).
  destruct (substr_holds st a xs 0 k Ha) as (l & s1 & R1 & Hl & F1); [lia|].
  destruct (substr_holds s1 a xs k (N.of_nat (List.length xs) - k) (F1 _ _ Ha))
    as (r & s2 & R2 & Hr & F2); [lia|].
  cbn [N.to_nat drop] in Hl.
  destruct (concat_holds s2 l r _ _ (F2 _ _ Hl) Hr) as (c & s3 & R3 & _ & Hc & F3).
  { rewrite !length_take, !length_drop. lia. }
  exists s3.
  rewrite (bind_Val _ _ _ _ _ R1), (bind_Val _ _ _ _ _ R2),
          (bind_Val _ _ _ _ _ R3).
  erewrite op_eq_run; [|exact Hc|by apply F3, F2, F1].
  f_equal. apply seq_eq_iff; [done|].
  change (N.to_nat 0) with 0%nat. rewrite drop_0.
  rewrite (take_ge (drop _ _)) by (rewrite length_drop; lia).
  apply take_drop.
Qed.

(** X14: One more repetition is one more copy at the end:
    [s * t + s == s * (t + 1)] for [t >= 0], and [s * 1 == s]. *)
Theorem repeat_step (st : @state T) a xs t :
  holds st a xs -> (0 <= t < INT_MAX)%Z ->
  N.of_nat (List.length xs) * Z.to_N (t + 1) <= SIZE_MAX ->
  (exists st',
     (r1 <- repeat_ a t ;; r2 <- concat r1 a ;;
      r3 <- repeat_ a (t + 1) ;; op_eq T_ne r2 r3) st = Val true st') /\
  (exists st', (r <- repeat_ a 1 ;; op_eq T_ne r a) st = Val true st').
Proof.
  intros Ha Ht Hfit. pose proof Ha as (ra & _ & Hlen & Hmax & _). split.
  - destruct (repeat_holds st a xs t Ha) as (r1 & s1 & R1 & H1 & F1); [lia|nia|].
    destruct (concat_holds s1 r1 a _ _ H1 (F1 _ _ Ha)) as (r2 & s2 & R2 & _ & H2 & F2).
    { rewrite length_tiles. nia. }
    destruct (repeat_holds s2 a xs (t + 1) (F2 _ _ (F1 _ _ Ha)))
      as (r3 & s3 & R3 & H3 & F3); [lia|done|].
    exists s3.
    rewrite (bind_Val _ _ _ _ _ R1), (bind_Val _ _ _ _ _ R2),
            (bind_Val _ _ _ _ _ R3).
    erewrite op_eq_run; [|by apply F3|exact H3].
    f_equal. apply seq_eq_iff; [done|].
    replace (Z.to_nat (t + 1)) with (S (Z.to_nat t)) by lia.
    rewrite replicate_S_end, concat_app. cbn. by rewrite app_nil_r.
  - destruct (repeat_holds st a xs 1 Ha) as (r & s1 & R1 & H1 & F1);
      [unfold INT_MAX; lia|lia|].
    exists s1. rewrite (bind_Val _ _ _ _ _ R1).
    erewrite op_eq_run; [|exact H1|by apply F1].
    f_equal. apply seq_eq_iff; [done|].
    change (Z.to_nat 1) with 1%nat. cbn. by rewrite app_nil_r.
Qed.

End EqualityMore.

(** ** More on the order *)

Section OrderMore.

Variables T_lt T_gt : T -> T -> bool.

(** No element is less or greater than itself. *)
Hypothesis T_lt_irrefl : forall x, T_lt x x = false.
Hypothesis T_gt_irrefl : forall x, T_gt x x = false.

Lemma seq_lt_irrefl xs : seq_lt T_lt T_gt xs xs = false.
Proof.
  induction xs as [|x xs IH]; [done|]. cbn.
  by rewrite T_lt_irrefl, T_gt_irrefl.
Qed.

Lemma seq_lt_common_front zs xs ys :
  seq_lt T_lt T_gt (zs ++ xs) (zs ++ ys) = seq_lt T_lt T_gt xs ys.
Proof.
  induction zs as [|z zs IH]; [done|]. cbn.
  by rewrite T_lt_irrefl, T_gt_irrefl.
Qed.

Lemma seq_lt_prefix xs ys :
  seq_lt T_lt T_gt xs (xs ++ ys) = negb (bool_decide (ys = [])).
Proof.
  rewrite <- (app_nil_r xs) at 1. rewrite seq_lt_common_front.
  by destruct ys.
Qed.

(** X15: [operator<] is lexicographic: no sequence is less than itself, a
    sequence is less than every proper extension of itself, and a common
    front part does not change how two sequences compare. *)
Theorem order_spec (st : @state T) a b c xs ys zs :
  holds st a xs -> holds st b ys -> holds st c zs ->
  N.of_nat (List.length zs) + N.of_nat (List.length xs) <= SIZE_MAX ->
  N.of_nat (List.length zs) + N.of_nat (List.length ys) <= SIZE_MAX ->
  N.of_nat (List.length xs) + N.of_nat (List.length ys) <= SIZE_MAX ->
  op_lt T_lt T_gt a a st = Val false st /\
  (exists st',
     (ab <- concat a b ;; op_lt T_lt T_gt a ab) st
     = Val (negb (bool_decide (ys = []))) st') /\
  (exists v st',
     op_lt T_lt T_gt a b st = Val v st /\
     (ca <- concat c a ;; cb <- concat c b ;; op_lt T_lt T_gt ca cb) st
     = Val v st').
Proof.
  intros Ha Hb Hc Hza Hzb Hab. split; [|split].
  - rewrite (op_lt_run _ _ _ _ _ _ _ Ha Ha). f_equal. apply seq_lt_irrefl.
  - destruct (concat_holds st a b xs ys Ha Hb Hab) as (ab & s1 & R1 & _ & H1 & F1).
    exists s1. rewrite (bind_Val _ _ _ _ _ R1).
    rewrite (op_lt_run _ _ _ _ _ _ _ (F1 _ _ Ha) H1). f_equal.
    apply seq_lt_prefix.
  - destruct (concat_holds st c a zs xs Hc Ha Hza) as (ca & s1 & R1 & _ & H1 & F1).
    destruct (concat_holds s1 c b zs ys (F1 _ _ Hc) (F1 _ _ Hb) Hzb)
      as (cb & s2 & R2 & _ & H2 & F2).
    exists (seq_lt T_lt T_gt xs ys), s2. split; [by apply op_lt_run|].
    rewrite (bind_Val _ _ _ _ _ R1), (bind_Val _ _ _ _ _ R2).
    rewrite (op_lt_run _ _ _ _ _ _ _ (F2 _ _ H1) H2). f_equal.
    apply seq_lt_common_front.
Qed.

End OrderMore.

(** ** Construction from a zero-terminated array, and reading a token *)

Section SentinelMore.

Variable T_zero : T.
Variable T_eq : T -> T -> bool.

Lemma scan_zero_found pre z rest n :
  Forall (fun c => T_eq c T_zero = false) pre -> T_eq z T_zero = true ->
  n + N.of_nat (List.length pre) <= SIZE_MAX ->
  scan_zero T_zero T_eq (pre ++ z :: rest) n
  = Some (n + N.of_nat (List.length pre)).
Proof.
  intros Hpre Hz. revert n.
  induction Hpre as [|c pre Hc _ IH]; intros n Hn; cbn [app scan_zero].
  - rewrite Hz. f_equal. cbn. lia.
  - cbn [List.length] in Hn. rewrite Hc, size_add_small by lia.
    rewrite IH by lia. f_equal. cbn [List.length]. lia.
Qed.

Lemma scan_zero_none buf n :
  Forall (fun c => T_eq c T_zero = false) buf ->
  scan_zero T_zero T_eq buf n = None.
Proof.
  intros Hbuf. revert n. induction Hbuf as [|c buf Hc _ IH]; intros n; [done|].
  cbn. by rewrite Hc.
Qed.

Lemma String_cstr_run (st : @state T) b off arr pre z rest :
  heap st !! b = Some arr ->
  drop (N.to_nat off) arr = pre ++ z :: rest ->
  Forall (fun c => T_eq c T_zero = false) pre -> T_eq z T_zero = true ->
  N.of_nat (List.length pre) <= SIZE_MAX ->
  String_cstr T_zero T_eq (Ptr b off) st
  = Val (fresh (dom (objs st)))
        (State (<[fresh (dom (heap st)) := pre]> (heap st))
               (<[fresh (dom (objs st)) :=
                    mkString (Ptr (fresh (dom (heap st))) 0)
                             (N.of_nat (List.length pre))]> (objs st))).
Proof.
  destruct st as [h o]. cbn [heap objs]. intros Hb Hdrop Hpre Hz Hmax.
  assert (N.to_nat off + List.length pre < List.length arr)%nat as Hlt.
  { pose proof (f_equal List.length Hdrop) as E.
    rewrite length_drop, length_app in E. cbn in E. lia. }
  set (a := fresh (dom o)).
  unfold String_cstr.
  rewrite (bind_Val _ _ _ _ _ (String_default_run _)). cbn [heap objs]. fold a.
  erewrite bind_Val; cycle 1.
  { unfold measure. apply ask_Some. cbn [heap]. rewrite Hb.
    rewrite decide_True by lia. rewrite Hdrop.
    rewrite scan_zero_found by (done || lia). by rewrite N.add_0_l. }
  erewrite bind_Val; [|by apply set_length_Some, lookup_insert_eq].
  rewrite insert_insert_eq. cbn [data String_init].
  erewrite bind_Val; cycle 1.
  { eapply (copy_from_spec _ _ _ _ pre); [apply lookup_insert_eq|].
    split; [done|]. exists arr. split; [done|]. split; [lia|].
    rewrite Hdrop, Nat2N.id. by rewrite take_app_length. }
  cbn [heap objs]. by rewrite insert_insert_eq.
Qed.

(** X16: [String(const T* cstr)] copies the elements that come before the first
    element equal to [T()], in order, into a new array; it reads the buffer
    and changes no object that exists.  A buffer that starts with [T()]
    gives the empty sequence. *)
Theorem cstr_spec (st : @state T) b off arr pre z rest :
  heap st !! b = Some arr ->
  drop (N.to_nat off) arr = pre ++ z :: rest ->
  Forall (fun c => T_eq c T_zero = false) pre -> T_eq z T_zero = true ->
  N.of_nat (List.length pre) <= SIZE_MAX ->
  exists this st',
    String_cstr T_zero T_eq (Ptr b off) st = Val this st' /\
    objs st !! this = None /\
    holds st' this pre /\
    size this st' = Val (N.of_nat (List.length pre)) st' /\
    heap st' !! b = Some arr /\
    (forall x zs, holds st x zs -> holds st' x zs).
Proof.
  intros Hb Hdrop Hpre Hz Hmax.
  eexists _, _. split; [by eapply String_cstr_run|].
  split; [apply fresh_addr_None|].
  assert (holds
    (State (<[fresh (dom (heap st)) := pre]> (heap st))
       (<[fresh (dom (objs st)) :=
            mkString (Ptr (fresh (dom (heap st))) 0)
                     (N.of_nat (List.length pre))]> (objs st)))
    (fresh (dom (objs st))) pre) as Hh by by apply holds_new.
  split; [exact Hh|]. split; [by apply size_holds|]. split.
  { cbn [heap]. rewrite lookup_insert_ne; [done|].
    symmetry. eapply fresh_block_ne, Hb. }
  intros x zs Hx. destruct st as [h o].
  by apply holds_frame; [apply fresh_block_None|apply fresh_addr_None|].
Qed.

(** X17: The constructor has no way to know where the buffer ends: on a null
    pointer, on a pointer to no live array and on an array with no element
    equal to [T()] from the pointer on, its scan leaves the array and the
    behaviour is undefined. *)
Theorem cstr_unterminated (st : @state T) cstr :
  match cstr with
  | Null => True
  | Ptr b off =>
      forall arr, heap st !! b = Some arr ->
        Forall (fun c => T_eq c T_zero = false) (drop (N.to_nat off) arr)
  end ->
  String_cstr T_zero T_eq cstr st = Undef.
Proof.
  intros Hbuf. unfold String_cstr.
  rewrite (bind_Val _ _ _ _ _ (String_default_run _)).
  unfold bind at 1, measure, ask. cbn [heap].
  destruct cstr as [|b off]; [done|].
  destruct (heap st !! b) as [arr|]; [|done].
  destruct (decide _); [|done].
  by rewrite scan_zero_none by by apply Hbuf.
Qed.


End SentinelMore.

(** ** Exclusive ownership *)













(** ** Writing through [operator[]] *)

Lemma subscript_lvalue (st : @state T) a xs i :
  holds st a xs -> i < N.of_nat (List.length xs) ->
  exists r b,
    objs st !! a = Some r /\ data r = Ptr b 0 /\ heap st !! b = Some xs /\
    subscript a i st = Val (Ptr b i) st.
Proof.
  destruct st as [h o]. intros (r & Hr & Hlen & Hmax & Hd) Hi. cbn in *.
  destruct (data r) as [|b off] eqn:E.
  { subst xs. cbn in Hi. lia. }
  destruct Hd as [-> Hb]. exists r, b. split; [done|]. split; [done|].
  split; [done|].
  unfold subscript. rewrite (bind_Val _ _ _ _ _ (get_length_Some _ _ _ _ Hr)).
  rewrite Hlen, decide_False by lia.
  rewrite (bind_Val _ _ _ _ _ (get_data_Some _ _ _ _ Hr)), E.
  rewrite (ptr_add_Ptr _ _ _ _ _ _ Hb) by lia. done.
Qed.

(** X20: [s[i] = v] for [i < size()]: afterwards [s[i]] is [v], every other
    element and the length are as before, and no other object changes. *)
Theorem subscript_write_spec (st : @state T) a xs i v :
  holds st a xs -> i < N.of_nat (List.length xs) ->
  exists st',
    (p <- subscript a i ;; store p v) st = Val tt st' /\
    holds st' a (<[N.to_nat i := v]> xs) /\
    objs st' = objs st /\
    at_ a i st' = Val v st' /\
    (forall j x, j <> i -> xs !! N.to_nat j = Some x ->
       at_ a j st' = Val x st') /\
    size a st' = Val (N.of_nat (List.length xs)) st' /\
    (forall x zs, separate st a x -> x <> a -> holds st x zs -> holds st' x zs).
Proof.
  intros Ha Hi.
  destruct (subscript_lvalue st a xs i Ha Hi) as (r & b & Hr & Hd & Hb & Hs).
  pose proof Ha as (r' & Hr' & Hlen & Hmax & _).
  assert (r' = r) as -> by congruence.
  destruct st as [h o]. cbn [heap objs] in *.
  exists (State (<[b := <[N.to_nat i := v]> xs]> h) o).
  split.
  { rewrite (bind_Val _ _ _ _ _ Hs). by apply store_Some. }
  assert (holds (State (<[b := <[N.to_nat i := v]> xs]> h) o) a
                (<[N.to_nat i := v]> xs)) as Hh.
  { exists r. split; [done|]. split; [by rewrite length_insert|].
    split; [done|]. rewrite Hd. cbn [heap]. split; [done|apply lookup_insert_eq]. }
  split; [exact Hh|]. split; [done|]. split.
  { apply (at_holds _ _ _ _ _ Hh). apply list_lookup_insert_eq. lia. }
  split.
  { intros j x Hj Hx. apply (at_holds _ _ _ _ _ Hh).
    rewrite list_lookup_insert_ne; [done|]. lia. }
  split.
  { by rewrite (size_holds _ _ _ Hh), length_insert. }
  intros x zs Hsep Hne (rx & Hrx & Hlenx & Hmaxx & Hdx).
  exists rx. split; [done|]. split; [done|]. split; [done|]. cbn [heap].
  specialize (Hsep r rx Hr Hrx). rewrite Hd in Hsep.
  destruct (data rx) as [|bx offx]; [done|]. destruct Hdx as [-> Hbx].
  split; [done|]. by rewrite lookup_insert_ne.
Qed.

(** ** Assignment of a temporary, as in [main] *)

Lemma assign_temp_run (m : M addr) (st : @state T) s r xs h1 rt :
  objs st !! s = Some r -> owns h1 r xs ->
  m st = Val (fresh (dom (objs st)))
             (State h1 (<[fresh (dom (objs st)) := rt]> (objs st))) ->
  (tmp <- m ;; assign_move s tmp ;;; destroy tmp) st
  = Val tt (State (released h1 r) (<[s := rt]> (objs st))).
Proof.
  destruct st as [h o]. cbn [heap objs]. intros Hr Hown Hm.
  assert (s <> fresh (dom o)) as Hne by (eapply fresh_addr_ne, Hr).
  rewrite (bind_Val _ _ _ _ _ Hm).
  erewrite bind_Val; cycle 1.
  { eapply (assign_move_run _ s _ r _ xs); cbn [heap objs];
      [done|by rewrite lookup_insert_ne|done|apply lookup_insert_eq]. }
  cbn [heap objs]. unfold destroy.
  erewrite bind_Val; [|by apply get_data_Some, lookup_insert_eq].
  cbn [data String_init]. unfold bind at 1, delete_array, free_obj.
  cbn [heap objs]. rewrite lookup_insert_eq.
  rewrite delete_insert_eq, delete_insert_ne by done.
  rewrite delete_insert_id by apply fresh_addr_None. done.
Qed.

(** The store after [s = e], where [e] built the sequence [zs] in a fresh
    array: [s] holds [zs], its old array is released, the others are as
    before. *)
Lemma assign_temp_fresh (st : @state T) s r xs zs n :
  objs st !! s = Some r -> owns (heap st) r xs ->
  (forall x, x <> s -> separate st s x) ->
  n = N.of_nat (List.length zs) -> n <= SIZE_MAX ->
  let fb := fresh (dom (heap st)) in
  let st' := State (released (<[fb := zs]> (heap st)) r)
                   (<[s := mkString (Ptr fb 0) n]> (objs st)) in
  holds st' s zs /\
  (forall ob, data r = Ptr ob 0 -> heap st' !! ob = None) /\
  (forall x ws, x <> s -> holds st x ws -> holds st' x ws).
Proof.
  destruct st as [h o]. cbn [heap objs]. intros Hr Hown Hsep -> Hmax.
  set (fb := fresh (dom h)).
  pose proof Hown as (_ & _ & Hd).
  assert (h !! fb = None) as Hfb by apply fresh_block_None.
  split; [|split].
  - eexists. split; [apply lookup_insert_eq|].
    split; [done|]. split; [done|]. cbn [data heap]. split; [done|].
    unfold released. destruct (data r) as [|ob ooff]; [apply lookup_insert_eq|].
    destruct Hd as [_ Hob]. rewrite lookup_delete_ne; [apply lookup_insert_eq|].
    intros ->. congruence.
  - intros ob Hob. unfold released. rewrite Hob. apply lookup_delete_eq.
  - intros x ws Hx Hxh.
    apply (holds_objs _ o); [by rewrite lookup_insert_ne|].
    apply holds_released.
    + by apply holds_fresh_block.
    + intros rx Hrx. by apply (Hsep x Hx r rx).
Qed.

(** X21: [s = s + other]: [s] holds its elements followed by those of [other]
    in one new array, the array it had is released, the temporary is gone
    and every other object keeps its elements. *)
Theorem assign_concat_spec (st : @state T) s other xs ys :
  holds st s xs -> holds st other ys ->
  (forall x, x <> s -> separate st s x) ->
  N.of_nat (List.length xs) + N.of_nat (List.length ys) <= SIZE_MAX ->
  exists st',
    assign_concat s other st = Val tt st' /\
    holds st' s (xs ++ ys) /\
    dom (objs st') = dom (objs st) /\
    (forall ob, (exists r, objs st !! s = Some r /\ data r = Ptr ob 0) ->
                heap st' !! ob = None) /\
    (forall x zs, x <> s -> holds st x zs -> holds st' x zs).
Proof.
  intros Hs Ho Hsep Hfit. pose proof Hs as (r & Hr & Hown).
  eexists. split.
  { unfold assign_concat.
    eapply (assign_temp_run _ _ _ r xs); [done| |by apply concat_run].
    by apply owns_fresh_block; [apply fresh_block_None|]. }
  destruct (assign_temp_fresh st s r xs (xs ++ ys)
              (N.of_nat (List.length (xs ++ ys))) Hr Hown Hsep)
    as (H1 & H2 & H3); [done|rewrite length_app; lia|].
  split; [exact H1|]. split.
  { cbn [objs]. apply dom_insert_lookup_L. by exists r. }
  split; [|exact H3].
  intros ob (r' & Hr' & Hob). assert (r' = r) as -> by congruence. by apply H2.
Qed.

(** X22: [s = s * times]: [s] holds [times] copies of its elements, the array it
    had is released, the temporary is gone and every other object keeps its
    elements; for [times <= 0] the statement does what [clear] does. *)
Theorem assign_repeat_spec (st : @state T) s xs times :
  holds st s xs ->
  (forall x, x <> s -> separate st s x) ->
  (times <= INT_MAX)%Z ->
  N.of_nat (List.length xs) * Z.to_N times <= SIZE_MAX ->
  exists st',
    assign_repeat s times st = Val tt st' /\
    holds st' s (List.concat (replicate (Z.to_nat times) xs)) /\
    dom (objs st') = dom (objs st) /\
    (forall ob, (exists r, objs st !! s = Some r /\ data r = Ptr ob 0) ->
                heap st' !! ob = None) /\
    (forall x zs, x <> s -> holds st x zs -> holds st' x zs) /\
    ((times <= 0)%Z -> clear s st = Val tt st').
Proof.
  intros Hs Hsep Ht Hfit. pose proof Hs as (r & Hr & Hown).
  destruct (decide (times <= 0)%Z) as [Hle|Hpos].
  - destruct (clear_run st s xs Hs) as (r' & Hr' & Hclear).
    assert (r' = r) as -> by congruence.
    exists (State (released (heap st) r) (<[s := String_init]> (objs st))).
    split.
    { unfold assign_repeat.
      eapply (assign_temp_run _ _ _ r xs); [done|done|].
      unfold repeat_. by rewrite decide_True. }
    replace (Z.to_nat times) with 0%nat by lia. cbn [replicate List.concat].
    split; [apply holds_init, lookup_insert_eq|]. split.
    { cbn [objs]. apply dom_insert_lookup_L. by exists r. }
    split.
    { intros ob (r2 & Hr2 & Hob). assert (r2 = r) as -> by congruence.
      cbn [heap]. unfold released. rewrite Hob. apply lookup_delete_eq. }
    split; [|done].
    intros x zs Hx Hxh. destruct st as [h o]. cbn [heap objs] in *.
    apply (holds_objs _ o); [by rewrite lookup_insert_ne|].
    apply holds_released; [done|]. intros rx Hrx. by apply (Hsep x Hx r rx).
  - eexists. split.
    { unfold assign_repeat.
      eapply (assign_temp_run _ _ _ r xs);
        [done| |apply (repeat_run _ _ xs); [done|lia|done]].
      by apply owns_fresh_block; [apply fresh_block_None|]. }
    destruct (assign_temp_fresh st s r xs
                (List.concat (replicate (Z.to_nat times) xs))
                (N.of_nat (List.length xs) * Z.to_N times) Hr Hown Hsep)
      as (H1 & H2 & H3); [rewrite length_tiles; lia|done|].
    split; [exact H1|]. split.
    { cbn [objs]. apply dom_insert_lookup_L. by exists r. }
    split; [|split; [exact H3|lia]].
    intros ob (r' & Hr' & Hob). assert (r' = r) as -> by congruence. by apply H2.
Qed.

End Coverage.

(** ** Upper case *)

Lemma upper_twice c :
  call ToUpperChar (call ToUpperChar c) = call ToUpperChar c.
Proof.
  unfold ToUpperChar. cbn [call].
  destruct ((97 <=? c) && (c <=? 122)) eqn:E; [|by rewrite E].
  apply andb_true_iff in E as [H1 H2]. apply N.leb_le in H1, H2.
  rewrite (proj2 (N.leb_gt 97 (c - 32))) by lia. done.
Qed.

(** X23: [s.apply(toUpper)] with [ToUpperChar]: every lower-case letter is
    replaced by its upper-case letter, every other character stays, and
    applying the transformer once more changes nothing. *)
Theorem upper_spec (st : @state N) a xs :
  holds st a xs ->
  exists st',
    apply a ToUpperChar st = Val tt st' /\
    holds st' a (call ToUpperChar <$> xs) /\
    (forall i c, xs !! i = Some c ->
       at_ a (N.of_nat i) st'
       = Val (if decide (97 <= c <= 122) then c - 32 else c) st') /\
    apply a ToUpperChar st' = Val tt st'.
Proof.
  intros (r & Hr & Hown).
  pose proof (modify_holds st a r xs (call ToUpperChar) Hr Hown) as Hh.
  eexists. split; [by eapply modify_run|]. split; [exact Hh|]. split.
  - intros i c Hc. apply (at_holds _ _ _ _ _ Hh).
    rewrite Nat2N.id, list_lookup_fmap, Hc. cbn. f_equal.
    destruct (decide _) as [[H1 H2]|Hn].
    + apply N.leb_le in H1, H2. by rewrite H1, H2.
    + destruct ((97 <=? c) && (c <=? 122)) eqn:E; [|done].
      apply andb_true_iff in E as [H1 H2]. apply N.leb_le in H1, H2. lia.
  - destruct Hh as (r' & Hr' & Hown'). cbn [objs] in Hr'.
    assert (r' = r) as -> by congruence.
    unfold apply. erewrite modify_run; [|exact Hr'|exact Hown'].
    cbn [heap objs]. f_equal. f_equal.
    destruct (data r) as [|b off]; [done|].
    rewrite insert_insert_eq. f_equal.
    rewrite <- list_fmap_compose. apply list_fmap_ext.
    intros i c _. apply upper_twice.
Qed.

(** ** The rest of the class at sample states *)

Lemma code_gt_irrefl x : code_gt x x = false.
Proof. apply N.ltb_irrefl. Qed.

Lemma st_two_objs a r :
  objs st_two !! a = Some r ->
  (a = 1%positive /\ r = mkString (Ptr 1%positive 0) 2) \/
  (a = 2%positive /\ r = mkString (Ptr 2%positive 0) 2) \/
  (a = 3%positive /\ r = String_init).
Proof.
  unfold st_two. cbn [objs].
  rewrite !lookup_insert_Some, lookup_singleton_Some.
  intros [[<- <-]|[_ [[<- <-]|[_ [<- <-]]]]]; auto.
Qed.

Lemma st_two_well_formed : well_formed st_two.
Proof.
  split.
  - intros a r Hr.
    destruct (st_two_objs a r Hr) as [[-> ->]|[[-> ->]|[-> ->]]].
    + exists [97; 98]. repeat split; try reflexivity; by vm_compute.
    + exists [99; 100]. repeat split; try reflexivity; by vm_compute.
    + exists []. repeat split; try reflexivity; by vm_compute.
  - intros a b Hne ra rb Ha Hb.
    destruct (st_two_objs a ra Ha) as [[-> ->]|[[-> ->]|[-> ->]]];
      destruct (st_two_objs b rb Hb) as [[-> ->]|[[-> ->]|[-> ->]]];
      cbn; done.
Qed.

Lemma st_two_separate x : x <> 1%positive -> separate st_two 1%positive x.
Proof. intros Hx. by apply (proj2 st_two_well_formed). Qed.

Lemma st_abc_separate x : x <> 1%positive -> separate st_abc 1%positive x.
Proof.
  intros Hx ra rb _ Hb. cbn in Hb.
  apply lookup_singleton_Some in Hb as [<- _]. done.
Qed.


(** [String(2, 'x')] beside "abc". *)
Lemma fill_spec_witness :
  exists this st',
    String_fill 2 120 st_abc = Val this st' /\
    holds st' this [120; 120] /\
    at_ this 1 st' = Val 120 st' /\
    at_ this 2 st' = Exc (OutOfRangeException 2) st'.
Proof.
  destruct (fill_spec st_abc 2 120)
    as (this & st' & Hrun & _ & Hh & _ & Hin & Hout & _); [by vm_compute|].
  exists this, st'. split; [exact Hrun|]. split; [exact Hh|].
  split; [apply Hin; by vm_compute|apply Hout; by vm_compute].
Defined.

(** A copy of "abc", and the store after the copy is destroyed. *)
Lemma copy_spec_witness :
  exists this st',
    String_copy 1%positive st_abc = Val this st' /\
    holds st' this [97; 98; 99] /\ holds st' 1%positive [97; 98; 99] /\
    destroy this st' = Val tt st_abc.
Proof.
  assert (holds st_abc 1%positive [97; 98; 99]) as Hh by holds_tac.
  destruct (copy_spec st_abc 1%positive [97; 98; 99] Hh)
    as (this & st' & Hrun & _ & H1 & H2 & _ & _ & Hd).
  exists this, st'. split; [exact Hrun|]. split; [exact H1|].
  split; [exact H2|exact Hd].
Defined.

(** "ab" = "cd". *)
Lemma copy_assign_spec_witness :
  exists st',
    assign_copy 1%positive 2%positive st_two = Val 1%positive st' /\
    holds st' 1%positive [99; 100] /\ holds st' 2%positive [99; 100] /\
    holds st' 3%positive [].
Proof.
  assert (holds st_two 1%positive [97; 98]) as H1 by holds_tac.
  assert (holds st_two 2%positive [99; 100]) as H2 by holds_tac.
  assert (holds st_two 3%positive []) as H3 by holds_tac.
  destruct (copy_assign_spec st_two 1%positive 2%positive [97; 98] [99; 100])
    as (st' & Hrun & Ht & Ho & _ & Hframe);
    [done|exact H1|exact H2|exact st_two_separate|].
  exists st'. split; [exact Hrun|]. split; [exact Ht|]. split; [exact Ho|].
  apply Hframe; [done|exact H3].
Defined.

(** "ab" += '!'. *)
Lemma append_spec_witness :
  exists st',
    append 1%positive 33 st_two = Val 1%positive st' /\
    holds st' 1%positive [97; 98; 33] /\ holds st' 2%positive [99; 100] /\
    heap st' !! 1%positive = None.
Proof.
  assert (holds st_two 1%positive [97; 98]) as H1 by holds_tac.
  assert (holds st_two 2%positive [99; 100]) as H2 by holds_tac.
  destruct (append_spec st_two 1%positive [97; 98] 33 H1)
    as (st' & Hrun & Hh & _ & _ & _ & Hfree & Hframe);
    [by vm_compute|exact st_two_separate|].
  exists st'. split; [exact Hrun|]. split; [exact Hh|].
  split; [apply Hframe; [done|exact H2]|].
  apply Hfree. eexists. split; reflexivity.
Defined.

(** The successor of every code of "abc". *)
Lemma modify_spec_witness :
  exists st',
    modify 1%positive (N.add 1) st_abc = Val tt st' /\
    holds st' 1%positive [98; 99; 100] /\
    at_ 1%positive 0 st' = Val 98 st'.
Proof.
  assert (holds st_abc 1%positive [97; 98; 99]) as Hh by holds_tac.
  destruct (modify_spec st_abc 1%positive [97; 98; 99] (N.add 1) Hh)
    as (st' & Hrun & _ & Hh' & _ & _ & Hat & _).
  exists st'. split; [exact Hrun|]. split; [exact Hh'|].
  exact (Hat 0%nat 97 eq_refl).
Defined.

(** [clear] on "ab" beside "cd". *)
Lemma clear_spec_witness :
  exists st',
    clear 1%positive st_two = Val tt st' /\
    holds st' 1%positive [] /\
    empty 1%positive st' = Val true st' /\
    heap st' !! 1%positive = None /\
    holds st' 2%positive [99; 100].
Proof.
  assert (holds st_two 1%positive [97; 98]) as H1 by holds_tac.
  assert (holds st_two 2%positive [99; 100]) as H2 by holds_tac.
  destruct (clear_spec st_two 1%positive [97; 98] H1 st_two_separate)
    as (st' & Hrun & Hh & He & _ & Hfree & _ & Hframe).
  exists st'. split; [exact Hrun|]. split; [exact Hh|]. split; [exact He|].
  split; [|apply Hframe; [done|exact H2]].
  apply Hfree. eexists. split; reflexivity.
Defined.

(** [empty()] on "" and on "ab". *)
Lemma empty_spec_witness :
  empty 3%positive st_two = Val true st_two /\
  empty 1%positive st_two = Val false st_two /\
  size 1%positive st_two = Val 2 st_two.
Proof.
  assert (holds st_two 1%positive [97; 98]) as H1 by holds_tac.
  assert (holds st_two 3%positive []) as H3 by holds_tac.
  split; [exact (proj1 (empty_spec st_two 3%positive [] H3))|].
  split; [exact (proj1 (empty_spec st_two 1%positive [97; 98] H1))|].
  exact (proj2 (empty_spec st_two 1%positive [97; 98] H1)).
Defined.

(** "abc" moved into a new object, then both destroyed. *)
Lemma move_then_destroy_witness :
  holds st_abc 1%positive [97; 98; 99] /\
  exists this st1 st2,
    String_move 1%positive st_abc = Val this st1 /\
    (destroy 1%positive ;;; destroy this) st1 = Val tt st2 /\
    destroy 1%positive st_abc = Val tt st2.
Proof.
  assert (holds st_abc 1%positive [97; 98; 99]) as Hh by holds_tac.
  split; [exact Hh|].
  exact (move_then_destroy st_abc 1%positive [97; 98; 99] Hh).
Defined.

(** "abc" + '!'. *)
Lemma append_element_spec_witness :
  exists r st',
    append_element 1%positive 33 st_abc = Val r st' /\
    holds st' r [97; 98; 99; 33] /\ holds st' 1%positive [97; 98; 99].
Proof.
  assert (holds st_abc 1%positive [97; 98; 99]) as Hh by holds_tac.
  destruct (append_element_spec st_abc 1%positive [97; 98; 99] 33 Hh)
    as (r & st' & fb & Hrun & _ & _ & _ & _ & Hr & Ha & _); [by vm_compute|].
  exists r, st'. split; [exact Hrun|]. split; [exact Hr|exact Ha].
Defined.

(** '!' + "abc". *)
Lemma prepend_element_spec_witness :
  exists r st',
    prepend_element 33 1%positive st_abc = Val r st' /\
    holds st' r [33; 97; 98; 99] /\ holds st' 1%positive [97; 98; 99] /\
    dom (objs st') = {[ 1%positive; r ]}.
Proof.
  assert (holds st_abc 1%positive [97; 98; 99]) as Hh by holds_tac.
  destruct (prepend_element_spec st_abc 1%positive [97; 98; 99] 33 Hh)
    as (r & st' & fb & Hrun & _ & _ & _ & Ho & Hr & Ha & _); [by vm_compute|].
  exists r, st'. split; [exact Hrun|]. split; [exact Hr|]. split; [exact Ha|].
  rewrite Ho. cbn [objs st_abc]. rewrite dom_insert_L, dom_singleton_L.
  apply (comm_L union).
Defined.

(** "abc" written after '>'. *)
Lemma op_write_spec_witness :
  holds st_abc 1%positive [97; 98; 99] /\
  op_write [62] 1%positive st_abc = Val [62; 97; 98; 99] st_abc.
Proof.
  assert (holds st_abc 1%positive [97; 98; 99]) as Hh by holds_tac.
  split; [exact Hh|].
  exact (op_write_spec st_abc 1%positive [97; 98; 99] [62] Hh).
Defined.

(** "ab" and "cd" compared. *)
Lemma equality_spec_witness :
  op_eq code_ne 1%positive 2%positive st_two = Val false st_two /\
  op_ne code_ne 1%positive 2%positive st_two = Val true st_two /\
  op_eq code_ne 2%positive 1%positive st_two = Val false st_two /\
  op_eq code_ne 1%positive 1%positive st_two = Val true st_two.
Proof.
  assert (holds st_two 1%positive [97; 98]) as H1 by holds_tac.
  assert (holds st_two 2%positive [99; 100]) as H2 by holds_tac.
  destruct (equality_spec code_ne code_ne_eq st_two 1%positive 2%positive
              [97; 98] [99; 100] H1 H2)
    as (e & Heq & Hiff & Hne & Hsym & Hrefl).
  assert (e = false) as ->.
  { destruct e; [|done]. destruct Hiff as [Hiff _].
    specialize (Hiff eq_refl). done. }
  split; [exact Heq|]. split; [exact Hne|]. split; [exact Hsym|exact Hrefl].
Defined.

(** "abc" cut after its first element and put together again. *)
Lemma split_join_witness :
  exists st',
    (l <- substr 1%positive 0 1 ;;
     r <- substr 1%positive 1 2 ;;
     c <- concat l r ;;
     op_eq code_ne c 1%positive) st_abc = Val true st'.
Proof.
  assert (holds st_abc 1%positive [97; 98; 99]) as Hh by holds_tac.
  assert (1 <= N.of_nat (List.length [97; 98; 99])) as Hk by (by vm_compute).
  exact (split_join code_ne code_ne_eq st_abc 1%positive [97; 98; 99] 1 Hh Hk).
Defined.

(** "abc" * 2 + "abc" and "abc" * 3. *)
Lemma repeat_step_witness :
  (exists st',
     (r1 <- repeat_ 1%positive 2 ;; r2 <- concat r1 1%positive ;;
      r3 <- repeat_ 1%positive 3 ;; op_eq code_ne r2 r3) st_abc
     = Val true st') /\
  (exists st',
     (r <- repeat_ 1%positive 1 ;; op_eq code_ne r 1%positive) st_abc
     = Val true st').
Proof.
  assert (holds st_abc 1%positive [97; 98; 99]) as Hh by holds_tac.
  assert (0 <= 2 < INT_MAX)%Z as Ht by (by vm_compute).
  assert (N.of_nat (List.length [97; 98; 99]) * Z.to_N (2 + 1) <= SIZE_MAX)
    as Hfit by (by vm_compute).
  exact (repeat_step code_ne code_ne_eq st_abc 1%positive [97; 98; 99] 2
           Hh Ht Hfit).
Defined.

(** "ab" against itself, against "abcd", and "cdab" against "cdcd". *)
Lemma order_spec_witness :
  op_lt code_lt code_gt 1%positive 1%positive st_two = Val false st_two /\
  (exists st',
     (ab <- concat 1%positive 2%positive ;;
      op_lt code_lt code_gt 1%positive ab) st_two = Val true st') /\
  (exists v st',
     op_lt code_lt code_gt 1%positive 2%positive st_two = Val v st_two /\
     (ca <- concat 2%positive 1%positive ;;
      cb <- concat 2%positive 2%positive ;;
      op_lt code_lt code_gt ca cb) st_two = Val v st').
Proof.
  assert (holds st_two 1%positive [97; 98]) as H1 by holds_tac.
  assert (holds st_two 2%positive [99; 100]) as H2 by holds_tac.
  assert (N.of_nat 2 + N.of_nat 2 <= SIZE_MAX) as Hfit by (by vm_compute).
  exact (order_spec code_lt code_gt code_lt_irrefl code_gt_irrefl st_two
           1%positive 2%positive 2%positive [97; 98] [99; 100] [99; 100]
           H1 H2 H2 Hfit Hfit Hfit).
Defined.

(** The token "hi" from its buffer, and the empty token from the buffer
    that starts at the terminating zero. *)
Lemma cstr_spec_witness :
  (exists this st',
     String_cstr 0 code_eq (Ptr 2%positive 0) st_token = Val this st' /\
     holds st' this [104; 105] /\ size this st' = Val 2 st') /\
  (exists this st',
     String_cstr 0 code_eq (Ptr 2%positive 2) st_token = Val this st' /\
     holds st' this []).
Proof.
  split.
  - destruct (cstr_spec 0 code_eq st_token 2%positive 0 [104; 105; 0; 33]
                [104; 105] 0 [33])
      as (this & st' & Hrun & _ & Hh & Hs & _);
      [reflexivity|reflexivity|by repeat constructor|reflexivity
      |by vm_compute|].
    exists this, st'. split; [exact Hrun|]. split; [exact Hh|exact Hs].
  - destruct (cstr_spec 0 code_eq st_token 2%positive 2 [104; 105; 0; 33]
                [] 0 [33])
      as (this & st' & Hrun & _ & Hh & _);
      [reflexivity|reflexivity|by constructor|reflexivity|by vm_compute|].
    exists this, st'. split; [exact Hrun|exact Hh].
Defined.

(** The array of "abc" has no terminating zero, the buffer has none after
    its last character, and a null pointer has no array. *)
Lemma cstr_unterminated_witness :
  String_cstr 0 code_eq (Ptr 1%positive 0) st_abc = Undef /\
  String_cstr 0 code_eq (Ptr 2%positive 3) st_token = Undef /\
  String_cstr 0 code_eq Null st_abc = Undef.
Proof.
  split; [|split].
  - apply cstr_unterminated. intros arr Harr. vm_compute in Harr.
    injection Harr as <-. by repeat constructor.
  - apply cstr_unterminated. intros arr Harr. vm_compute in Harr.
    injection Harr as <-. by repeat constructor.
  - by apply cstr_unterminated.
Defined.



(** "abc"[1] = 'B'. *)
Lemma subscript_write_spec_witness :
  exists st',
    (p <- subscript 1%positive 1 ;; store p 66) st_abc = Val tt st' /\
    holds st' 1%positive [97; 66; 99] /\
    at_ 1%positive 1 st' = Val 66 st' /\
    at_ 1%positive 2 st' = Val 99 st'.
Proof.
  assert (holds st_abc 1%positive [97; 98; 99]) as Hh by holds_tac.
  destruct (subscript_write_spec st_abc 1%positive [97; 98; 99] 1 66 Hh)
    as (st' & Hrun & Hh' & _ & Hat & Hoth & _); [by vm_compute|].
  exists st'. split; [exact Hrun|]. split; [exact Hh'|]. split; [exact Hat|].
  apply (Hoth 2 99); [done|reflexivity].
Defined.

(** [s = s + other] at "ab" and "cd". *)
Lemma assign_concat_spec_witness :
  exists st',
    assign_concat 1%positive 2%positive st_two = Val tt st' /\
    holds st' 1%positive [97; 98; 99; 100] /\
    holds st' 2%positive [99; 100] /\
    heap st' !! 1%positive = None.
Proof.
  assert (holds st_two 1%positive [97; 98]) as H1 by holds_tac.
  assert (holds st_two 2%positive [99; 100]) as H2 by holds_tac.
  destruct (assign_concat_spec st_two 1%positive 2%positive [97; 98] [99; 100]
              H1 H2 st_two_separate)
    as (st' & Hrun & Hh & _ & Hfree & Hframe); [by vm_compute|].
  exists st'. split; [exact Hrun|]. split; [exact Hh|].
  split; [apply Hframe; [done|exact H2]|].
  apply Hfree. eexists. split; reflexivity.
Defined.

(** [s = s * 2] and [s = s * 0] at "ab". *)
Lemma assign_repeat_spec_witness :
  (exists st',
     assign_repeat 1%positive 2 st_two = Val tt st' /\
     holds st' 1%positive [97; 98; 97; 98] /\
     holds st' 2%positive [99; 100]) /\
  (exists st',
     assign_repeat 1%positive 0 st_two = Val tt st' /\
     clear 1%positive st_two = Val tt st' /\
     holds st' 1%positive []).
Proof.
  assert (holds st_two 1%positive [97; 98]) as H1 by holds_tac.
  assert (holds st_two 2%positive [99; 100]) as H2 by holds_tac.
  split.
  - destruct (assign_repeat_spec st_two 1%positive [97; 98] 2 H1
                st_two_separate)
      as (st' & Hrun & Hh & _ & _ & Hframe & _); [by vm_compute..|].
    exists st'. split; [exact Hrun|]. split; [exact Hh|].
    apply Hframe; [done|exact H2].
  - destruct (assign_repeat_spec st_two 1%positive [97; 98] 0 H1
                st_two_separate)
      as (st' & Hrun & Hh & _ & _ & _ & Hclear); [by vm_compute..|].
    exists st'. split; [exact Hrun|]. split; [by apply Hclear|exact Hh].
Defined.

(** "abc" in upper case is "ABC". *)
Lemma upper_spec_witness :
  exists st',
    apply 1%positive ToUpperChar st_abc = Val tt st' /\
    holds st' 1%positive [65; 66; 67] /\
    apply 1%positive ToUpperChar st' = Val tt st'.
Proof.
  assert (holds st_abc 1%positive [97; 98; 99]) as Hh by holds_tac.
  destruct (upper_spec st_abc 1%positive [97; 98; 99] Hh)
    as (st' & Hrun & Hh' & _ & Hagain).
  exists st'. split; [exact Hrun|]. split; [exact Hh'|exact Hagain].
Defined.
